(** * SageMakerExample: the notebook orchestration, embedded and verified

    The repository is a set of Jupyter notebooks.  Three of them carry the
    logic studied here:

    - the deployment / inference / explainability notebook
      (music recommender, part 4),
    - the feature-group ingestion notebook (music recommender, part 2c),
    - the GPT-J model-parallel training notebook.

    A code cell is embedded as a computation over the kernel's variables
    that records every call it makes to the outside world (the SageMaker
    and S3 clients, [print], [time.sleep]) in a trace.  What the outside
    world answers is an input of the cell. *)

From Stdlib Require Import ZArith QArith Ascii String List Lia Sorted.
From Stdlib Require Import DecimalString DecimalZ.
From Stdlib Require Import Floats.SpecFloat.
From stdpp Require Import base option list gmap strings.

Local Open Scope Z_scope.

(** ** Python values the cells look at *)

(** A Python dict with string keys, as used for the [response] of a
    botocore error and for the answer of [describe]. *)
Abbreviation dict V := (gmap string V).

(** The exceptions that occur in the notebooks.  A botocore [ClientError]
    carries the parsed service response, [{'Error': {'Code': ..}, ..}]; the
    other exception classes have no [response] attribute.  [SystemExit]
    derives from [BaseException], not from [Exception]. *)
Inductive exn : Type :=
  | ClientError (response : dict (dict string))
  | OtherException (cls : string)
  | AttributeError (what : string)
  | NameError (var : string)
  | KeyError (labels : list string)
  | SystemExit (msg : string).

(** [isinstance(e, Exception)]: what an [except Exception] clause catches. *)
Definition is_Exception (e : exn) : bool :=
  match e with
  | SystemExit _ => false
  | _ => true
  end.

(** The response of a service error with the given error code. *)
Definition error_response (code : string) : dict (dict string) :=
  {[ "Error" := {[ "Code" := code ]} ]}.

(** ** Calls to the outside world *)

Inductive event : Type :=
  | Print (line : string)
  | Sleep (seconds : Z)
  | DescribeFeatureGroup (name : string)     (* sagemaker_client.describe_feature_group *)
  | FeatureGroupCreate (name : string)       (* feature_group.create *)
  | FeatureGroupDescribe (name : string)     (* feature_group.describe *)
  | ProcessorRun (job_name : string)         (* processor.run *)
  | WaitForProcessingJob (job_name : string) (* sess.wait_for_processing_job *)
  | DownloadFile (key : string)              (* s3_client.download_file *)
  | RunExplainability                        (* clarify_processor.run_explainability *)
  | Deploy (endpoint_name : string).         (* xgb_estimator.deploy *)

Definition is_create (ev : event) : bool :=
  match ev with FeatureGroupCreate _ => true | _ => false end.
Definition is_processor_run (ev : event) : bool :=
  match ev with ProcessorRun _ => true | _ => false end.
Definition is_deploy (ev : event) : bool :=
  match ev with Deploy _ => true | _ => false end.
Definition is_sleep (ev : event) : bool :=
  match ev with Sleep _ => true | _ => false end.

(** How often a kind of call occurs in a trace. *)
Definition count (p : event -> bool) (t : list event) : nat :=
  length (filter (fun ev => p ev = true) t).

(** ** The kernel and the cell monad *)

(** The variables of the kernel that a cell may find unbound.  [None] is an
    unbound name: reading it raises [NameError]. *)
Record kernel : Type := Kernel {
  feature_group_exists : option bool
}.

Definition fresh_kernel : kernel := {| feature_group_exists := None |}.

(** How a computation ended.  [Running] is a loop that was still going when
    the fuel of the model ran out. *)
Inductive outcome (A : Type) : Type :=
  | Returned (a : A)
  | Raised (e : exn)
  | Running.
Arguments Returned {A} a.
Arguments Raised {A} e.
Arguments Running {A}.

(** A computation: from the kernel to the trace of its calls, the kernel it
    leaves (assignments made before an exception stay) and its outcome. *)
Definition cell (A : Type) : Type := kernel -> list event * kernel * outcome A.

Definition trace_of {A} (r : list event * kernel * outcome A) : list event := r.1.1.
Definition kernel_of {A} (r : list event * kernel * outcome A) : kernel := r.1.2.
Definition outcome_of {A} (r : list event * kernel * outcome A) : outcome A := r.2.

Definition ret {A} (a : A) : cell A := fun k => ([], k, Returned a).
Definition raise {A} (e : exn) : cell A := fun k => ([], k, Raised e).
Definition emit (ev : event) : cell unit := fun k => ([ev], k, Returned tt).

Definition bind {A B} (m : cell A) (f : A -> cell B) : cell B :=
  fun k =>
    match m k with
    | (t, k', Returned a) => let '(t', k'', o) := f a k' in (t ++ t', k'', o)
    | (t, k', Raised e) => (t, k', Raised e)
    | (t, k', Running) => (t, k', Running)
    end.

Declare Scope cell_scope.
Delimit Scope cell_scope with cell.
Notation "x <- m ;; f" := (bind m (fun x => f))
  (at level 100, m at next level, right associativity) : cell_scope.
Notation "m ;; f" := (bind m (fun _ => f))
  (at level 100, right associativity) : cell_scope.
Local Open Scope cell_scope.

(** [try: body  except Exception as e: handler e]. *)
Definition try_except {A} (body : cell A) (handler : exn -> cell A) : cell A :=
  fun k =>
    match body k with
    | (t, k', Raised e) =>
        if is_Exception e
        then let '(t', k'', o) := handler e k' in (t ++ t', k'', o)
        else (t, k', Raised e)
    | r => r
    end.

(** A call to the outside world: it is recorded, then it returns or raises
    as the world decided. *)
Definition call {A} (ev : event) (answer : exn + A) : cell A :=
  emit ev ;;
  match answer with
  | inl e => raise e
  | inr a => ret a
  end.

(** [feature_group_exists = b]. *)
Definition set_feature_group_exists (b : bool) : cell unit :=
  fun k => ([], {| feature_group_exists := Some b |}, Returned tt).

(** Reading the name [feature_group_exists]. *)
Definition get_feature_group_exists : cell bool :=
  fun k =>
    match feature_group_exists k with
    | Some b => ([], k, Returned b)
    | None => ([], k, Raised (NameError "feature_group_exists"))
    end.

(** [e.response.get('Error').get('Code')]: the attribute [response] exists on
    a [ClientError] only, and [.get] on the [None] that a missing ['Error']
    key yields is an [AttributeError] too.  A missing ['Code'] gives [None]. *)
Definition error_code (e : exn) : cell (option string) :=
  match e with
  | ClientError response =>
      match response !! "Error" with
      | Some err => ret (err !! "Code")
      | None => raise (AttributeError "'NoneType' object has no attribute 'get'")
      end
  | _ => raise (AttributeError "object has no attribute 'response'")
  end.

(** The error code of a service error, for the statements: [None] when the
    exception carries none. *)
Definition service_code (e : exn) : option string :=
  match e with
  | ClientError response => response !! "Error" ≫= (.!! "Code")
  | _ => None
  end.

(** [error == "..."] for the value that [error_code] gave. *)
Definition code_is (error : option string) (code : string) : bool :=
  bool_decide (error = Some code).

(** [if b: m]. *)
Definition when (b : bool) (m : cell unit) : cell unit :=
  if b then m else ret tt.

(** ** The feature-group notebook *)

Module FeatureGroupNotebook.

Definition feature_group_name : string := "ratings-features-music-rec".

(** ["Feature Group {0} already exists. Using {0}".format(name)]. *)
Definition msg_exists (name : string) : string :=
  "Feature Group " +:+ name +:+ " already exists. Using " +:+ name.
Definition msg_creating (name : string) : string :=
  "Creating Feature Group " +:+ name.

(** What the world answers to the calls of the provisioning cell. *)
Record provisioning_world : Type := {
  describe_answer : exn + unit;   (* describe_feature_group *)
  create_answer : exn + unit      (* feature_group.create *)
}.

(** The body of the [except Exception as e] clause of the provisioning
    cell. *)
Definition provisioning_handler (w : provisioning_world) (e : exn) : cell unit :=
  error <- error_code e ;;
  when (code_is error "ResourceNotFound")
    (set_feature_group_exists false ;;
     emit (Print (msg_creating feature_group_name)) ;;
     call (FeatureGroupCreate feature_group_name) (create_answer w)) ;;
  when (code_is error "ResourceInUse")
    (set_feature_group_exists true ;;
     emit (Print (msg_exists feature_group_name))).

(** The cell "only create feature group if it doesn't already exist". *)
Definition provisioning_cell (w : provisioning_world) : cell unit :=
  try_except
    (call (DescribeFeatureGroup feature_group_name) (describe_answer w) ;;
     set_feature_group_exists true ;;
     emit (Print (msg_exists feature_group_name)))
    (provisioning_handler w).

(** [status = feature_group.describe().get("FeatureGroupStatus")], the
    [i]-th time the notebook asks. *)
Definition poll_status (describes : nat -> exn + dict string) (i : nat)
  : cell (option string) :=
  d <- call (FeatureGroupDescribe feature_group_name) (describes i) ;;
  ret (d !! "FeatureGroupStatus").

(** The [while status == "Creating"] loop.  [i] counts the polls made so
    far.  The loop itself has no bound: the fuel is the model's, and a loop
    that outlives it ends as [Running]. *)
Fixpoint wait_loop (fuel : nat) (describes : nat -> exn + dict string)
    (i : nat) (status : option string) : cell (option string) :=
  if code_is status "Creating" then
    match fuel with
    | O => fun k => ([], k, Running)
    | S fuel' =>
        emit (Print "Waiting for Feature Group Creation") ;;
        emit (Sleep 5) ;;
        status' <- poll_status describes i ;;
        wait_loop fuel' describes (S i) status'
    end
  else ret status.

(** [f"{status}"]. *)
Definition show_status (status : option string) : string :=
  match status with
  | Some s => s
  | None => "None"
  end.

Definition msg_failed (status : option string) : string :=
  "Failed to create feature group " +:+ feature_group_name +:+ ": "
    +:+ show_status status.
Definition msg_created : string :=
  "FeatureGroup " +:+ feature_group_name +:+ " successfully created.".

Definition wait_for_feature_group_creation_complete
    (fuel : nat) (describes : nat -> exn + dict string) : cell unit :=
  status <- poll_status describes 0 ;;
  status <- wait_loop fuel describes 1 status ;;
  when (negb (code_is status "Created")) (raise (SystemExit (msg_failed status))) ;;
  emit (Print msg_created).

(** What the world answers to the calls of the ingestion cell. *)
Record ingestion_world : Type := {
  processing_job_name : string;
  run_answer : exn + unit;          (* processor.run(.., wait=False) *)
  job_result : exn + string         (* sess.wait_for_processing_job, as printed *)
}.

Definition msg_skip (name : string) : string :=
  "Feature Group " +:+ name
    +:+ " already exists therefore we will not run a processing job to create it again".
Definition msg_job (name : string) : string :=
  "Creating Processing Job: " +:+ name.

(** The cell "Run Processing Job if job not already previously ran". *)
Definition ingestion_cell (w : ingestion_world) : cell unit :=
  exists_ <- get_feature_group_exists ;;
  if exists_ : bool then
    emit (Print (msg_skip feature_group_name))
  else
    emit (Print (msg_job feature_group_name)) ;;
    call (ProcessorRun (processing_job_name w)) (run_answer w) ;;
    r <- call (WaitForProcessingJob (processing_job_name w)) (job_result w) ;;
    emit (Print r).

(** What the world answers during one run of the three cells; [describes]
    are the answers to the polls of the wait cell, in order. *)
Record stage_world : Type := {
  provisioning : provisioning_world;
  describes : nat -> exn + dict string;
  ingestion : ingestion_world
}.

(** The three cells in notebook order, as "Run All" executes them: the
    first exception stops the run. *)
Definition stage (fuel : nat) (w : stage_world) : cell unit :=
  provisioning_cell (provisioning w) ;;
  wait_for_feature_group_creation_complete fuel (describes w) ;;
  ingestion_cell (ingestion w).

(** *** The feature store the provisioning cell talks to

    The notebook's handler expects this of the service: describing a group
    that does not exist fails with [ResourceNotFound], creating one that
    exists fails with [ResourceInUse], and a created group exists from then
    on.  The store is the set of the names of the groups that exist. *)
Definition fs_describe (fs : gset string) (name : string) : exn + unit :=
  if decide (name ∈ fs) then inr tt
  else inl (ClientError (error_response "ResourceNotFound")).

Definition fs_create (fs : gset string) (name : string) : exn + unit :=
  if decide (name ∈ fs) then inl (ClientError (error_response "ResourceInUse"))
  else inr tt.

Definition fs_world (fs : gset string) : provisioning_world :=
  {| describe_answer := fs_describe fs feature_group_name;
     create_answer := fs_create fs feature_group_name |}.

(** The store after a run with trace [t]: a [create] call that the store
    accepted has added the group. *)
Definition fs_after (fs : gset string) (t : list event) : gset string :=
  if existsb is_create t then {[ feature_group_name ]} ∪ fs else fs.

(** One run of the stage against the store; the other answers are free. *)
Definition stage_on (fs : gset string) (fuel : nat)
    (describes : nat -> exn + dict string) (ing : ingestion_world)
  : cell unit :=
  stage fuel {| provisioning := fs_world fs; describes := describes; ingestion := ing |}.

End FeatureGroupNotebook.

(** ** The deployment, inference and explainability notebook *)

Module InferenceNotebook.

(** *** Deployment *)

(** ['{}-endpoint-notebooks'.format(model_name)]. *)
Definition endpoint_name (model_name : string) : string :=
  model_name +:+ "-endpoint-notebooks".

Definition msg_existing (name : string) : string :=
  "Using existing endpoint: " +:+ name.

(** [d[key]] on a dict. *)
Definition getitem_dict (d : dict string) (key : string) : cell string :=
  match d !! key with
  | Some v => ret v
  | None => raise (KeyError [key])
  end.

(** The cell "Create endpoint".  [endpoints] is
    [endpoint_list['Endpoints']], the in-service endpoints whose name
    contains [endpoint_name], newest first. *)
Definition deploy_cell (model_name : string) (endpoints : list (dict string))
    (deploy_answer : exn + unit) : cell unit :=
  if 0 <? Z.of_nat (length endpoints) then
    match endpoints with
    | first :: _ =>
        name <- getitem_dict first "EndpointName" ;;
        emit (Print (msg_existing name))
    | [] => raise (OtherException "IndexError")
    end
  else
    call (Deploy (endpoint_name model_name)) deploy_answer.

(** *** Explainability *)

Definition shap_key (prefix : string) : string :=
  prefix +:+ "/clarify-output/explainability/explanations_shap/out.csv".

Record explainability_world : Type := {
  download_answer : exn + unit;   (* s3_client.download_file *)
  job_answer : exn + unit         (* clarify_processor.run_explainability *)
}.

(** The body of the [except Exception as e] clause of the explainability
    cell. *)
Definition explainability_handler (w : explainability_world) (e : exn)
  : cell unit :=
  error <- error_code e ;;
  when (code_is error "404")
    (emit (Print "Running explainability job") ;;
     call RunExplainability (job_answer w)).

Definition explainability_cell (prefix : string) (w : explainability_world)
  : cell unit :=
  try_except
    (call (DownloadFile (shap_key prefix)) (download_answer w) ;;
     emit (Print "Downloaded output from previous explainability job"))
    (explainability_handler w).

(** *** Data frames *)

(** [str.lower] on labels of ASCII characters: the letters A to Z are
    lower-cased and every other byte is kept.  Python lower-cases the cased
    letters outside ASCII too; labels that have such letters are outside
    this model. *)
Definition lower_ascii (c : ascii) : ascii :=
  let n := nat_of_ascii c in
  if (65 <=? n)%nat && (n <=? 90)%nat then ascii_of_nat (n + 32) else c.

Fixpoint lower (s : string) : string :=
  match s with
  | EmptyString => EmptyString
  | String c s' => String (lower_ascii c) (lower s')
  end.

Section Frames.

(** The type of the cells.  The track columns hold numbers and strings, the
    user columns the strings of [ValueAsString]. *)
Context {V : Type}.

(** A pandas frame with the default row index: the column labels and the
    rows.  In a frame every row is as long as the list of labels. *)
Record DataFrame : Type := Frame {
  columns : list string;
  values : list (list V)
}.

Definition rectangular (df : DataFrame) : Prop :=
  Forall (fun row => length row = length (columns df)) (values df).

(** [pd.DataFrame(df_user['ValueAsString']).T]: the tall user record, one
    (feature name, value) pair per line, pivoted to a frame of one row. *)
Definition pivot (df_user : list (string * V)) : DataFrame :=
  {| columns := df_user.*1; values := [df_user.*2] |}.

(** The renaming of overlapping labels in [merge], suffixes [_x] and [_y]. *)
Definition renamer (to_rename : list string) (suffix : string) (x : string)
  : string :=
  if bool_decide (x ∈ to_rename) then x +:+ suffix else x.

(** [left.merge(right, how='cross')]: every left row with every right
    row, left rows outermost. *)
Definition merge_cross (left right : DataFrame) : DataFrame :=
  let to_rename :=
    filter (fun x => x ∈ columns right) (columns left) in
  {| columns := (renamer to_rename "_x" <$> columns left)
                  ++ (renamer to_rename "_y" <$> columns right);
     values := l ← values left; r ← values right; [l ++ r] |}.

(** [data.columns = [c.lower() for c in data.columns]]. *)
Definition lower_columns (df : DataFrame) : DataFrame :=
  {| columns := lower <$> columns df; values := values df |}.

(** The positions at which a label occurs, counted from [i]. *)
Fixpoint positions_from (i : nat) (label : string) (cols : list string)
  : list nat :=
  match cols with
  | [] => []
  | c :: cols' =>
      (if bool_decide (c = label) then [i] else [])
        ++ positions_from (S i) label cols'
  end.

Definition positions (label : string) (cols : list string) : list nat :=
  positions_from 0 label cols.

(** How many columns carry the label. *)
Definition occurrences (label : string) (cols : list string) : nat :=
  length (filter (fun c => c = label) cols).

(** The entries of a row at the given positions. *)
Definition take_cells {A} (idx : list nat) (row : list A) : list A :=
  omap (fun i => row !! i) idx.

(** [df[labels]] for a list of labels: a label that is no column is a
    [KeyError]; a label that several columns carry selects all of them. *)
Definition getitem (labels : list string) (df : DataFrame) : exn + DataFrame :=
  let missing :=
    filter (fun l => positions l (columns df) = []) labels in
  match missing with
  | [] =>
      let idx := l ← labels; positions l (columns df) in
      inr {| columns := take_cells idx (columns df);
             values := take_cells idx <$> values df |}
  | _ => inl (KeyError missing)
  end.

(** The labels of [data] once they are lower-cased. *)
Definition data_columns (df_tracks : DataFrame) (df_user : list (string * V))
  : list string :=
  columns (lower_columns (merge_cross df_tracks (pivot df_user))).

(** The cell that builds [inference_df]. *)
Definition inference_df (feature_names : list string) (df_tracks : DataFrame)
    (df_user : list (string * V)) : exn + DataFrame :=
  let data := merge_cross df_tracks (pivot df_user) in
  let data := lower_columns data in
  getitem feature_names data.

(** *** The wire format *)

(** [sep.join(fields)]. *)
Fixpoint join (sep : string) (fields : list string) : string :=
  match fields with
  | [] => ""
  | [f] => f
  | f :: fields' => f +:+ sep +:+ join sep fields'
  end.

(** [data_inputs = [','.join([str(i) for i in row]) for row in
    inference_df.values]], as a function of the array: the field [values]
    of the argument holds the rows of the array [inference_df.values]
    (module [Values] computes that array from the frame and the dtypes of
    its columns), and [str] is Python's rendering of an element. *)
Definition format_row (str : V -> string) (row : list V) : string :=
  join "," (str <$> row).

Definition data_inputs (str : V -> string) (df : DataFrame) : list string :=
  format_row str <$> values df.

(** Whether the character occurs in the string. *)
Fixpoint contains (c : ascii) (s : string) : bool :=
  match s with
  | EmptyString => false
  | String c' s' => Ascii.eqb c' c || contains c s'
  end.

(** Modelled from the spec: the reader of the wire format.  The notebook
    only writes rows; what reads them back is the container behind the
    endpoint.  A line is read as Python's [csv] module reads it: the empty
    line has no fields, any other line has the fields that its commas
    separate, and each field is read by [parse]. *)
Fixpoint split_on (sep : ascii) (s : string) : list string :=
  match s with
  | EmptyString => [EmptyString]
  | String c s' =>
      if Ascii.eqb c sep then EmptyString :: split_on sep s'
      else match split_on sep s' with
           | f :: fields => String c f :: fields
           | [] => [String c EmptyString]
           end
  end.

(** Modelled from the spec: the reader of one line of the wire format, the
    inverse direction of [format_row]. *)
Definition parse_row (parse : string -> option V) (line : string)
  : option (list V) :=
  if bool_decide (line = "") then Some []
  else mapM parse (split_on "," line).

(** *** Ranking *)

(** The number that the cell of a row at position [i] holds.  The ratings
    are the numbers that [json.loads] read from the endpoint's answers;
    every finite float is a rational. *)
Definition key (num : V -> Q) (i : nat) (row : list V) : Q :=
  match row !! i with
  | Some v => num v
  | None => 0%Q
  end.

(** Whether [x] may stand before [y]. *)
Definition before (ascending : bool) (kx ky : Q) : bool :=
  if ascending then Qle_bool kx ky else Qle_bool ky kx.

Fixpoint insert_sorted (ascending : bool) (k : list V -> Q) (x : list V)
    (rows : list (list V)) : list (list V) :=
  match rows with
  | [] => [x]
  | y :: rows' =>
      if before ascending (k x) (k y) then x :: y :: rows'
      else y :: insert_sorted ascending k x rows'
  end.

Definition sort_rows (ascending : bool) (k : list V -> Q)
    (rows : list (list V)) : list (list V) :=
  foldr (insert_sorted ascending k) [] rows.

(** [df.sort_values(by=label, ascending=..)].  The order that pandas leaves
    among rows of equal key is not fixed by its default sort; here they keep
    their order. *)
Definition sort_values (num : V -> Q) (label : string) (ascending : bool)
    (df : DataFrame) : exn + DataFrame :=
  match positions label (columns df) with
  | [] => inl (KeyError [label])
  | [i] => inr {| columns := columns df;
                  values := sort_rows ascending (key num i) (values df) |}
  | _ => inl (OtherException "ValueError")
  end.

(** [df.head(n)], that is [df.iloc[:n]]: the first [n] rows, and for a
    negative [n] all rows but the last [-n]. *)
Definition head (n : Z) (df : DataFrame) : DataFrame :=
  {| columns := columns df;
     values :=
       if 0 <=? n then take (Z.to_nat n) (values df)
       else take (length (values df) - Z.to_nat (- n))%nat (values df) |}.

(** [playlist = inference_df.sort_values(by='rating',
    ascending=False).head(playlist_length)]. *)
Definition playlist (num : V -> Q) (playlist_length : Z)
    (inference_df : DataFrame) : exn + DataFrame :=
  match sort_values num "rating" false inference_df with
  | inl e => inl e
  | inr sorted => inr (head playlist_length sorted)
  end.

End Frames.

Arguments DataFrame V : clear implicits.

End InferenceNotebook.

(** [str] of a Python [int]. *)
Definition str_int (z : Z) : string :=
  NilZero.string_of_int (Z.to_int z).

(** [int] of a string of decimal digits with an optional minus sign. *)
Definition parse_int (s : string) : option Z :=
  Z.of_int <$> NilZero.int_of_string s.

(** ** The array [inference_df.values] *)

Module Values.

Import InferenceNotebook.

(** The dtypes of the columns of a frame of features. *)
Inductive dtype : Type := int64 | float64 | object.



(** The dtype of the array: [object] as soon as one column is, else
    [float64] as soon as one column is, else [int64]. *)
Definition is_object (d : dtype) : bool :=
  match d with object => true | _ => false end.

Definition is_float64 (d : dtype) : bool :=
  match d with float64 => true | _ => false end.

Definition common_dtype (dtypes : list dtype) : dtype :=
  if existsb is_object dtypes then object
  else if existsb is_float64 dtypes then float64
  else int64.











End Values.

(** ** The GPT-J training notebook *)

Module TrainingNotebook.

Inductive hp_value : Type :=
  | HStr (s : string)
  | HInt (z : Z)
  | HBool (b : bool)
  | HNum (q : Q).

Definition model_name_or_path : string := "EleutherAI/gpt-j-6B".
Definition pipeline_parallel_degree : Z := 16.
Definition ddp : bool := true.

Definition hyperparameters : dict hp_value :=
  list_to_map [
    ("dataset_name", HStr "glue");
    ("dataset_config_name", HStr "sst2");
    ("do_train", HBool true);
    ("do_eval", HBool false);
    ("per_device_train_batch_size", HInt 2);
    ("output_dir", HStr "./temp");
    ("model_name_or_path", HStr model_name_or_path);
    ("max_steps", HInt 100);
    ("seed", HInt 12345);
    ("lr", HNum (2 # 10000));
    ("lr_decay_iters", HInt 125000);
    ("min_lr", HNum (1 # 100000));
    ("warmup", HNum (1 # 100));
    ("shard_optimizer_state", HInt 1);
    ("activation_checkpointing", HInt 0);
    ("activation_strategy", HStr "each");
    ("optimize", HStr "memory");
    ("pipeline_parallel_degree", HInt pipeline_parallel_degree);
    ("ddp", HBool ddp);
    ("prescaled_batch", HInt 0);
    ("cache_dir", HStr "/tmp")
  ].

Definition instance_type : string := "ml.p3.16xlarge".
Definition volume_size : Z := 900.
Definition instance_count : Z := 4.
Definition process_per_host : Z := 8.

(** [hyperparameters[key]] where the notebook uses it as a number, as a
    flag ([> 0]) or as a string. *)
Definition hp_int (key : string) : option Z :=
  match hyperparameters !! key with
  | Some (HInt z) => Some z
  | _ => None
  end.

Definition hp_bool (key : string) : option bool :=
  match hyperparameters !! key with
  | Some (HBool b) => Some b
  | _ => None
  end.

Definition hp_str (key : string) : option string :=
  match hyperparameters !! key with
  | Some (HStr s) => Some s
  | _ => None
  end.

(** The [mpi] block of the distribution. *)
Record mpi_config : Type := {
  mpi_enabled : bool;
  processes_per_host : Z;
  custom_mpi_options : string
}.

Definition mpioptions : string :=
  "-x NCCL_DEBUG=WARN -x SMDEBUG_LOG_LEVEL=ERROR "
    +:+ "-x SMP_NCCL_THROTTLE_LIMIT=1 "
    +:+ "-x FI_EFA_USE_DEVICE_RDMA=1 -x FI_PROVIDER=efa -x RDMAV_FORK_SAFE=1".

Definition mpi : mpi_config :=
  {| mpi_enabled := true;
     processes_per_host := process_per_host;
     custom_mpi_options := mpioptions |}.

(** [smdistributed["modelparallel"]["parameters"]]. *)
Record modelparallel_parameters : Type := {
  mp_ddp : bool;
  microbatches : Z;
  partitions : Z;
  shard_optimizer_state : bool;
  prescaled_batch : bool;
  optimize : string;
  auto_partition : bool;
  default_partition : Z;
  offload_activations : bool;
  active_microbatches : Z
}.

(** The parameters as the cell computes them from [hyperparameters];
    [None] if a key it reads were missing. *)
Definition smdistributed_parameters : option modelparallel_parameters :=
  d ← hp_bool "ddp";
  p ← hp_int "pipeline_parallel_degree";
  s ← hp_int "shard_optimizer_state";
  b ← hp_int "prescaled_batch";
  o ← hp_str "optimize";
  Some {| mp_ddp := d;
          microbatches := 2;
          partitions := p;
          shard_optimizer_state := 0 <? s;
          prescaled_batch := 0 <? b;
          optimize := o;
          auto_partition := true;
          default_partition := 0;
          offload_activations := false;
          active_microbatches := 1 |}.

(** The processes of the job, one per accelerator: [instance_count]
    instances with [processes_per_host] processes each. *)
Definition total_accelerators : Z := instance_count * processes_per_host mpi.

(** The data-parallel degree that the partitions leave: the copies of the
    pipeline that fit on the accelerators. *)
Definition replicas (partitions : Z) : Z := total_accelerators / partitions.

End TrainingNotebook.

(** ** The training notebook: the name of the job *)

Module JobName.

(** [s.replace(old, new)] for one-character [old] and [new], as the cell
    uses it. *)
Fixpoint replace_char (old new : ascii) (s : string) : string :=
  match s with
  | EmptyString => EmptyString
  | String c s' =>
      String (if Ascii.eqb c old then new else c) (replace_char old new s')
  end.

(** [f"smp-{instance_type}-{model_name_or_path}-{cur_time}"
      .replace(".", "-").replace("/", "-")]; [cur_time] is the time stamp
    that [strftime] gave. *)
Definition base_job_name (instance_type model_name_or_path cur_time : string)
  : string :=
  replace_char "/" "-"
    (replace_char "." "-"
       ("smp-" +:+ instance_type +:+ "-" +:+ model_name_or_path +:+ "-"
          +:+ cur_time)).

End JobName.

(** ** The feature-group notebook: the feature definitions *)

Module FeatureDefinitions.

Inductive FeatureTypeEnum : Type := STRING | INTEGRAL | FRACTIONAL.

Record FeatureDefinition : Type := {
  feature_name : string;
  feature_type : FeatureTypeEnum
}.

Definition default_feature_type : FeatureTypeEnum := STRING.

Definition column_to_feature_type_mapping : dict FeatureTypeEnum :=
  {[ "float" := FRACTIONAL; "long" := INTEGRAL ]}.

(** The names that the notebook chose and the schema that it lists. *)
Definition record_identifier_feature_name : string := "ratingEventId".
Definition event_time_feature_name : string := "EventTime".

Definition column_schemas : list (dict string) :=
  [ {[ "name" := "ratingEventId"; "type" := "string" ]};
    {[ "name" := "ts"; "type" := "long" ]};
    {[ "name" := "userId"; "type" := "long" ]};
    {[ "name" := "trackId"; "type" := "string" ]};
    {[ "name" := "sessionId"; "type" := "long" ]};
    {[ "name" := "itemInSession"; "type" := "long" ]};
    {[ "name" := "Rating"; "type" := "float" ]};
    {[ "name" := "EventTime"; "type" := "float" ]} ].

(** [d[key]] on a column schema. *)
Definition schema_item (column_schema : dict string) (key : string)
  : exn + string :=
  match column_schema !! key with
  | Some v => inr v
  | None => inl (KeyError [key])
  end.

(** [FeatureDefinition(feature_name=column_schema['name'],
      feature_type=column_to_feature_type_mapping.get(column_schema['type'],
                                                      default_feature_type))]. *)
Definition feature_definition (column_schema : dict string)
  : exn + FeatureDefinition :=
  match schema_item column_schema "name" with
  | inl e => inl e
  | inr name =>
      match schema_item column_schema "type" with
      | inl e => inl e
      | inr type =>
          inr {| feature_name := name;
                 feature_type :=
                   default default_feature_type
                     (column_to_feature_type_mapping !! type) |}
      end
  end.

(** The list comprehension over [column_schemas]: the first schema that
    lacks a key ends it. *)
Fixpoint feature_definitions (column_schemas : list (dict string))
  : exn + list FeatureDefinition :=
  match column_schemas with
  | [] => inr []
  | column_schema :: rest =>
      match feature_definition column_schema with
      | inl e => inl e
      | inr d =>
          match feature_definitions rest with
          | inl e => inl e
          | inr ds => inr (d :: ds)
          end
      end
  end.

End FeatureDefinitions.

(** ** The inference notebook: scoring the rows *)

Module Scoring.

Import InferenceNotebook.

(** How often the character occurs in the string. *)
Fixpoint count_char (c : ascii) (s : string) : nat :=
  match s with
  | EmptyString => 0
  | String c' s' => (if Ascii.eqb c' c then 1 else 0) + count_char c s'
  end.

Section Scoring.

Context {V : Type}.

(** The variables of the prediction cell: the requests sent to the
    endpoint so far, the list [predictions], and the name [prediction],
    which is unbound until the loop body has run once. *)
Record predict_state : Type := {
  requests : list string;
  predictions : list V;
  prediction : option V
}.

(** [for data_input in data_inputs:] with the body
    [results = predictor.predict(data_input, ..)],
    [prediction = json.loads(results)], [predictions.append(prediction)].
    [predict i] is the endpoint's answer to the [i]-th request and [loads]
    is [json.loads]; an exception of either ends the loop. *)
Fixpoint predict_loop (predict : nat -> string -> exn + string)
    (loads : string -> exn + V) (data_inputs : list string)
    (st : predict_state) : predict_state * option exn :=
  match data_inputs with
  | [] => (st, None)
  | data_input :: rest =>
      let sent :=
        {| requests := requests st ++ [data_input];
           predictions := predictions st;
           prediction := prediction st |} in
      match predict (length (requests st)) data_input with
      | inl e => (sent, Some e)
      | inr results =>
          match loads results with
          | inl e => (sent, Some e)
          | inr p =>
              predict_loop predict loads rest
                {| requests := requests sent;
                   predictions := predictions st ++ [p];
                   prediction := Some p |}
          end
      end
  end.

(** The cell: [predictions = []], the loop, and the [print] of the last
    [prediction], which the result carries.  [prediction0] is what the
    kernel holds for the name [prediction] before the cell. *)
Definition prediction_cell (predict : nat -> string -> exn + string)
    (loads : string -> exn + V) (data_inputs : list string)
    (prediction0 : option V) : predict_state * (exn + V) :=
  let '(st, raised) :=
    predict_loop predict loads data_inputs
      {| requests := []; predictions := []; prediction := prediction0 |} in
  match raised with
  | Some e => (st, inl e)
  | None =>
      match prediction st with
      | Some p => (st, inr p)
      | None => (st, inl (NameError "prediction"))
      end
  end.

(** The cell [v] written at the given positions of a row. *)
Definition set_cells (idx : list nat) (v : V) (row : list V) : list V :=
  foldr (fun i r => <[i:=v]> r) row idx.

(** [df[label] = vals] for a list [vals].  A frame without rows takes the
    rows of a non-empty [vals], its other cells being [nan]; otherwise
    [vals] must have one value per row.  A new label is added as the last
    column; an existing label has its column overwritten, and so has every
    column that carries it. *)
Definition setitem (nan : V) (label : string) (vals : list V)
    (df : DataFrame V) : exn + DataFrame V :=
  let rows :=
    match values df, vals with
    | [], _ :: _ => replicate (length vals) (replicate (length (columns df)) nan)
    | rows, _ => rows
    end in
  if bool_decide (length vals = length rows) then
    match positions label (columns df) with
    | [] =>
        inr {| columns := columns df ++ [label];
               values := zip_with (fun row v => row ++ [v]) rows vals |}
    | idx =>
        inr {| columns := columns df;
               values := zip_with (fun row v => set_cells idx v row) rows vals |}
    end
  else inl (OtherException "ValueError").

(** [inference_df['rating'] = predictions] and
    [inference_df = inference_df[['rating']+feature_names]]. *)
Definition scored_frame (nan : V) (feature_names : list string)
    (predictions : list V) (inference_df : DataFrame V)
  : exn + DataFrame V :=
  match setitem nan "rating" predictions inference_df with
  | inl e => inl e
  | inr df => getitem ("rating" :: feature_names) df
  end.

End Scoring.

Definition label : string := "rating".

(** The key under which the cell uploads [data/prediction_data.csv], and
    [pred_data_uri], the input of the explainability job. *)
Definition pred_data_key (prefix : string) : string :=
  prefix +:+ "/data/pred/prediction_data.csv".

Definition pred_data_uri (bucket prefix : string) : string :=
  "s3://" +:+ bucket +:+ "/" +:+ prefix +:+ "/data/pred/prediction_data.csv".

(** [explainability_output_path], the output location of the job, and the
    path that the last cell reads with [pd.read_csv]. *)
Definition explainability_output_path (bucket prefix : string) : string :=
  "s3://" +:+ bucket +:+ "/" +:+ prefix +:+ "/clarify-output/explainability".

Definition local_explanations_path (bucket prefix : string) : string :=
  explainability_output_path bucket prefix +:+ "/explanations_shap/out.csv".

(** The URI of an object of a bucket. *)
Definition s3_uri (bucket key : string) : string :=
  "s3://" +:+ bucket +:+ "/" +:+ key.

(** [headers=[label]+feature_names] of the explainability data
    configuration. *)
Definition explainability_headers (feature_names : list string) : list string :=
  label :: feature_names.

End Scoring.

(** ** The vocabulary of the further statements *)

(** Scoring a line: the endpoint's answer read by [json.loads]. *)
Definition score {V} (predict : nat -> string -> exn + string)
    (loads : string -> exn + V) (i : nat) (data_input : string) : exn + V :=
  match predict i data_input with
  | inl e => inl e
  | inr results => loads results
  end.

(** A sample endpoint: it answers the [i]-th request with the number
    [i + 3], and in the failing variant refuses the third request. *)
Definition sample_predict (i : nat) (data_input : string) : exn + string :=
  inr (str_int (Z.of_nat i + 3)).

Definition failing_predict (i : nat) (data_input : string) : exn + string :=
  if (i =? 2)%nat then inl (OtherException "ModelError")
  else sample_predict i data_input.

Definition sample_loads (results : string) : exn + Z :=
  match parse_int results with
  | Some z => inr z
  | None => inl (OtherException "JSONDecodeError")
  end.

(** The name [prediction] after the loop has appended [vs]. *)
Definition last_or {V} (vs : list V) (prediction0 : option V) : option V :=
  match last vs with
  | Some p => Some p
  | None => prediction0
  end.

(** The number of rows that [head n] keeps of [N]. *)
Definition kept (n : Z) (N : nat) : nat :=
  if 0 <=? n then Nat.min (Z.to_nat n) N else (N - Z.to_nat (- n))%nat.

(** The number of columns that the labels select, all duplicates counted. *)
Definition selected (labels cols : list string) : nat :=
  foldr (fun l n => (InferenceNotebook.occurrences l cols + n)%nat) 0%nat labels.

(** * The vocabulary of the statements *)

Import FeatureGroupNotebook InferenceNotebook TrainingNotebook.

(** A computation that never makes a call of kind [p]. *)
Definition quiet {A} (p : event -> bool) (m : cell A) : Prop :=
  forall k, count p (trace_of (m k)) = 0%nat.

(** A computation that leaves the kernel's variables alone. *)
Definition pure {A} (m : cell A) : Prop :=
  forall k, kernel_of (m k) = k.

(** The kernel after [feature_group_exists = b]. *)
Definition set_flag (b : bool) (k : kernel) : kernel :=
  {| feature_group_exists := Some b |}.

(** What follows the provisioning cell in the stage. *)
Definition rest_of_stage (fuel : nat) (w : stage_world) : cell unit :=
  wait_for_feature_group_creation_complete fuel (describes w) ;;
  ingestion_cell (ingestion w).

(** One round of the loop: the message, the pause, the next poll. *)
Definition round : list event :=
  [Print "Waiting for Feature Group Creation"; Sleep 5;
   FeatureGroupDescribe feature_group_name].

(** The [i]-th poll is answered with a description whose status is [st]. *)
Definition polls (describes : nat -> exn + dict string) (i : nat)
    (st : option string) : Prop :=
  exists d, describes i = inr d /\ d !! "FeatureGroupStatus" = st.

(** The trace of a wait that saw [n] times "Creating" before [st]. *)
Definition wait_trace (n : nat) (st : option string) : list event :=
  FeatureGroupDescribe feature_group_name :: concat (replicate n round)
    ++ (if code_is st "Created" then [Print msg_created] else []).

(** What C4 says of one run of the cell: it yields a frame with as many
    rows as the tracks frame, whose columns are the feature names in their
    order, every row holding a cell for each of them. *)
Definition reprojects {V} (feature_names : list string)
    (df_tracks : DataFrame V) (df_user : list (string * V)) : Prop :=
  exists df, inference_df feature_names df_tracks df_user = inr df
    /\ length (values df) = length (values df_tracks)
    /\ columns df = feature_names
    /\ Forall (fun row => length row = length feature_names) (values df).

(** A cell whose rendering is a field of the wire format that reads back as
    the cell: not empty, without a comma, and parsed to the same value.
    This is what Python's [str] gives for a number. *)
Definition renders_back {V} (str : V -> string) (parse : string -> option V)
    (v : V) : Prop :=
  str v <> "" /\ contains "," (str v) = false /\ parse (str v) = Some v.

(** [a] stands before [b] in an order by the key [k]. *)
Definition ordered {V} (ascending : bool) (k : list V -> Q) (a b : list V)
  : Prop :=
  before ascending (k a) (k b) = true.

(** The rows of a frame in descending order of the cell at position [i]. *)
Definition descending {V} (num : V -> Q) (i : nat) (rows : list (list V))
  : Prop :=
  Sorted (fun a b => (key num i b <= key num i a)%Q) rows.

(** ** Sample runs *)

Definition sample_describes (i : nat) : exn + dict string :=
  inr {[ "FeatureGroupStatus" := if (i <? 2)%nat then "Creating" else "Created" ]}.

Definition stuck_describes (i : nat) : exn + dict string :=
  inr {[ "FeatureGroupStatus" := "Creating" ]}.

Definition sample_ingestion : ingestion_world :=
  {| processing_job_name := "dw-flow-proc-music-rec-ratings-7-1a2b3c4d";
     run_answer := inr tt;
     job_result := inr "Completed" |}.

Definition sample_stage (answer : exn + unit) : stage_world :=
  {| provisioning := {| describe_answer := answer; create_answer := inr tt |};
     describes := sample_describes;
     ingestion := sample_ingestion |}.

Definition service_error (code : string) : exn + unit :=
  inl (ClientError (error_response code)).

(** * Properties

    The statements about the repository carry the number of the property
    of its specification that they settle (C1 to C10). *)

(** ** The cell monad *)

Lemma count_app p (t1 t2 : list event) :
  count p (t1 ++ t2) = (count p t1 + count p t2)%nat.
Proof. unfold count. by rewrite filter_app, length_app. Qed.

Lemma count_cons p ev (t : list event) :
  count p (ev :: t) = ((if p ev then 1 else 0) + count p t)%nat.
Proof.
  unfold count. rewrite filter_cons.
  destruct (p ev); [by rewrite decide_True|by rewrite decide_False].
Qed.

Lemma bind_trace {A B} (m : cell A) (f : A -> cell B) k :
  trace_of (bind m f k) =
    trace_of (m k) ++
      match outcome_of (m k) with
      | Returned a => trace_of (f a (kernel_of (m k)))
      | _ => []
      end.
Proof.
  unfold bind, trace_of, kernel_of, outcome_of.
  destruct (m k) as [[t k'] [a|e|]]; simpl; rewrite ?app_nil_r; try done.
  by destruct (f a k') as [[t' k''] o].
Qed.

Lemma bind_kernel {A B} (m : cell A) (f : A -> cell B) k :
  kernel_of (bind m f k) =
    match outcome_of (m k) with
    | Returned a => kernel_of (f a (kernel_of (m k)))
    | _ => kernel_of (m k)
    end.
Proof.
  unfold bind, trace_of, kernel_of, outcome_of.
  destruct (m k) as [[t k'] [a|e|]]; simpl; try done.
  by destruct (f a k') as [[t' k''] o].
Qed.

Lemma bind_ret {A B} (a : A) (f : A -> cell B) k : bind (ret a) f k = f a k.
Proof. unfold bind, ret. by destruct (f a k) as [[t k'] o]. Qed.

Lemma bind_raise {A B} e (f : A -> cell B) k :
  bind (raise e) f k = ([], k, Raised e).
Proof. reflexivity. Qed.

Lemma quiet_bind {A B} p (m : cell A) (f : A -> cell B) :
  quiet p m -> (forall a, quiet p (f a)) -> quiet p (bind m f).
Proof.
  intros Hm Hf k. rewrite bind_trace, count_app, Hm.
  destruct (outcome_of (m k)); [apply Hf|done|done].
Qed.

Lemma quiet_ret {A} p (a : A) : quiet p (ret a).
Proof. by intros k. Qed.

Lemma quiet_raise {A} p e : quiet p (@raise A e).
Proof. by intros k. Qed.

Lemma quiet_emit p ev : p ev = false -> quiet p (emit ev).
Proof.
  intros H k. unfold emit, trace_of; simpl. by rewrite count_cons, H.
Qed.

Lemma quiet_call {A} p ev (answer : exn + A) :
  p ev = false -> quiet p (call ev answer).
Proof.
  intros H. apply quiet_bind; [by apply quiet_emit|].
  intros _. destruct answer; [apply quiet_raise|apply quiet_ret].
Qed.

Lemma quiet_when p b m : quiet p m -> quiet p (when b m).
Proof. destruct b; [done|]. intros _. apply quiet_ret. Qed.

Lemma pure_bind {A B} (m : cell A) (f : A -> cell B) :
  pure m -> (forall a, pure (f a)) -> pure (bind m f).
Proof.
  intros Hm Hf k. rewrite bind_kernel.
  destruct (outcome_of (m k)); rewrite ?Hf; apply Hm.
Qed.

Lemma pure_ret {A} (a : A) : pure (ret a).
Proof. by intros k. Qed.

Lemma pure_raise {A} e : pure (@raise A e).
Proof. by intros k. Qed.

Lemma pure_emit ev : pure (emit ev).
Proof. by intros k. Qed.

Lemma pure_call {A} ev (answer : exn + A) : pure (call ev answer).
Proof.
  apply pure_bind; [apply pure_emit|].
  intros _. destruct answer; [apply pure_raise|apply pure_ret].
Qed.

Lemma pure_when b m : pure m -> pure (when b m).
Proof. destruct b; [done|]. intros _. apply pure_ret. Qed.

Create HintDb cells discriminated.
#[local] Hint Resolve quiet_bind quiet_ret quiet_raise quiet_emit quiet_call
  quiet_when pure_bind pure_ret pure_raise pure_emit pure_call pure_when
  : cells.

(** What the error handlers do with the exception they caught. *)
Lemma error_code_service e c k :
  service_code e = Some c -> error_code e k = ([], k, Returned (Some c)).
Proof.
  destruct e as [response| | | | |]; simpl; try discriminate.
  destruct (response !! "Error") as [err|]; simpl; [|discriminate].
  by intros ->.
Qed.

Lemma code_is_true c : code_is (Some c) c = true.
Proof. unfold code_is. by apply bool_decide_eq_true_2. Qed.

Lemma code_is_false error c : error <> Some c -> code_is error c = false.
Proof. unfold code_is. by apply bool_decide_eq_false_2. Qed.

Lemma service_code_Exception e c : service_code e = Some c -> is_Exception e = true.
Proof. by destruct e. Qed.

(** ** The provisioning cell, case by case *)

(** A failed describe call hands the exception to the handler. *)
Lemma provisioning_failed w k e :
  describe_answer w = inl e -> is_Exception e = true ->
  provisioning_cell w k =
    (DescribeFeatureGroup feature_group_name :: trace_of (provisioning_handler w e k),
     kernel_of (provisioning_handler w e k),
     outcome_of (provisioning_handler w e k)).
Proof.
  intros H He. unfold provisioning_cell, try_except, bind at 1 2.
  rewrite H. cbn [call emit bind raise]. rewrite He.
  by destruct (provisioning_handler w e k) as [[t k'] o].
Qed.

Lemma provisioning_found w k :
  describe_answer w = inr tt ->
  provisioning_cell w k =
    ([DescribeFeatureGroup feature_group_name; Print (msg_exists feature_group_name)],
     set_flag true k, Returned tt).
Proof. intros H. unfold provisioning_cell, try_except. by rewrite H. Qed.

Lemma handler_not_found w k e :
  service_code e = Some "ResourceNotFound" ->
  provisioning_handler w e k =
    ([Print (msg_creating feature_group_name); FeatureGroupCreate feature_group_name],
     set_flag false k,
     match create_answer w with
     | inl e' => Raised e'
     | inr _ => Returned tt
     end).
Proof.
  intros Hc. unfold provisioning_handler, bind at 1.
  rewrite (error_code_service _ _ _ Hc).
  by destruct (create_answer w) as [e'|[]].
Qed.

Lemma handler_in_use w k e :
  service_code e = Some "ResourceInUse" ->
  provisioning_handler w e k =
    ([Print (msg_exists feature_group_name)], set_flag true k, Returned tt).
Proof.
  intros Hc. unfold provisioning_handler, bind at 1.
  by rewrite (error_code_service _ _ _ Hc).
Qed.

(** Neither of the two codes: no branch of the handler is taken. *)
Lemma handler_branches_skipped w error k :
  error <> Some "ResourceNotFound" -> error <> Some "ResourceInUse" ->
  (when (code_is error "ResourceNotFound")
     (set_feature_group_exists false ;;
      emit (Print (msg_creating feature_group_name)) ;;
      call (FeatureGroupCreate feature_group_name) (create_answer w)) ;;
   when (code_is error "ResourceInUse")
     (set_feature_group_exists true ;;
      emit (Print (msg_exists feature_group_name)))) k
  = ([], k, Returned tt).
Proof. intros H1 H2. by rewrite !code_is_false. Qed.

Lemma handler_fallthrough w k e :
  service_code e <> Some "ResourceNotFound" ->
  service_code e <> Some "ResourceInUse" ->
  trace_of (provisioning_handler w e k) = []
  /\ kernel_of (provisioning_handler w e k) = k.
Proof.
  intros H1 H2. unfold provisioning_handler.
  destruct e as [response| | | | |]; try done.
  unfold error_code. simpl in H1, H2.
  destruct (response !! "Error") as [err|]; simpl in *; [|done].
  by rewrite bind_ret, handler_branches_skipped.
Qed.

(** With an error code that is neither of the two, the handler returns
    and the exception is gone. *)
Lemma handler_other_code w k e c :
  service_code e = Some c -> c <> "ResourceNotFound" -> c <> "ResourceInUse" ->
  provisioning_handler w e k = ([], k, Returned tt).
Proof.
  intros Hc H1 H2. unfold provisioning_handler, bind at 1.
  rewrite (error_code_service _ _ _ Hc).
  by rewrite handler_branches_skipped by congruence.
Qed.

Lemma provisioning_not_found w k e :
  describe_answer w = inl e -> service_code e = Some "ResourceNotFound" ->
  provisioning_cell w k =
    ([DescribeFeatureGroup feature_group_name;
      Print (msg_creating feature_group_name);
      FeatureGroupCreate feature_group_name],
     set_flag false k,
     match create_answer w with
     | inl e' => Raised e'
     | inr _ => Returned tt
     end).
Proof.
  intros H Hc.
  rewrite (provisioning_failed _ _ _ H (service_code_Exception _ _ Hc)).
  by rewrite handler_not_found.
Qed.

Lemma provisioning_in_use w k e :
  describe_answer w = inl e -> service_code e = Some "ResourceInUse" ->
  provisioning_cell w k =
    ([DescribeFeatureGroup feature_group_name; Print (msg_exists feature_group_name)],
     set_flag true k, Returned tt).
Proof.
  intros H Hc.
  rewrite (provisioning_failed _ _ _ H (service_code_Exception _ _ Hc)).
  by rewrite handler_in_use.
Qed.

Lemma provisioning_other_code w k e c :
  describe_answer w = inl e -> service_code e = Some c ->
  c <> "ResourceNotFound" -> c <> "ResourceInUse" ->
  provisioning_cell w k =
    ([DescribeFeatureGroup feature_group_name], k, Returned tt).
Proof.
  intros H Hc H1 H2.
  rewrite (provisioning_failed _ _ _ H (service_code_Exception _ _ Hc)).
  by rewrite (handler_other_code _ _ _ _ Hc H1 H2).
Qed.

(** Whatever the describe call raised, the flag is assigned only for the
    two codes. *)
Lemma provisioning_flag_unassigned w k e :
  describe_answer w = inl e ->
  service_code e <> Some "ResourceNotFound" ->
  service_code e <> Some "ResourceInUse" ->
  kernel_of (provisioning_cell w k) = k
  /\ trace_of (provisioning_cell w k) = [DescribeFeatureGroup feature_group_name].
Proof.
  intros H H1 H2. destruct (is_Exception e) eqn:He.
  - rewrite (provisioning_failed _ _ _ H He).
    destruct (handler_fallthrough w k e H1 H2) as [Ht Hk].
    unfold kernel_of, trace_of in *; simpl. by rewrite Ht, Hk.
  - unfold provisioning_cell, try_except, bind at 1 2.
    rewrite H. cbn [call emit bind raise]. by rewrite He.
Qed.

(** ** The wait loop *)

Lemma poll_status_polls describes i st k :
  polls describes i st ->
  poll_status describes i k =
    ([FeatureGroupDescribe feature_group_name], k, Returned st).
Proof.
  intros (d & Hd & Hst). unfold poll_status, call. rewrite Hd.
  unfold bind, emit, ret. simpl. by rewrite Hst.
Qed.

Lemma wait_loop_done fuel describes i st k :
  st <> Some "Creating" ->
  wait_loop fuel describes i st k = ([], k, Returned st).
Proof. intros H. destruct fuel; cbn [wait_loop]; by rewrite code_is_false. Qed.

Lemma wait_loop_step fuel describes i st k :
  polls describes i st ->
  wait_loop (S fuel) describes i (Some "Creating") k =
    (round ++ trace_of (wait_loop fuel describes (S i) st k),
     kernel_of (wait_loop fuel describes (S i) st k),
     outcome_of (wait_loop fuel describes (S i) st k)).
Proof.
  intros Hp. cbn [wait_loop]. rewrite code_is_true.
  unfold bind at 1 2 3. cbn [emit]. rewrite (poll_status_polls _ _ _ _ Hp).
  by destruct (wait_loop fuel describes (S i) st k) as [[t k'] o].
Qed.

(** The loop goes on as long as the polls say "Creating" and stops at the
    first other status. *)
Lemma wait_loop_run m : forall fuel describes i st k,
  (m < fuel)%nat ->
  (forall j, (j < m)%nat -> polls describes (i + j) (Some "Creating")) ->
  polls describes (i + m) st -> st <> Some "Creating" ->
  wait_loop fuel describes i (Some "Creating") k =
    (concat (replicate (S m) round), k, Returned st).
Proof.
  induction m as [|m IH]; intros fuel describes i st k Hf Hc Hp Hst;
    (destruct fuel as [|fuel]; [lia|]).
  - rewrite Nat.add_0_r in Hp. rewrite (wait_loop_step _ _ _ _ _ Hp).
    by rewrite wait_loop_done.
  - assert (H0 : polls describes i (Some "Creating")).
    { specialize (Hc 0%nat). rewrite Nat.add_0_r in Hc. apply Hc. lia. }
    rewrite (wait_loop_step _ _ _ _ _ H0).
    rewrite (IH fuel describes (S i) st k); [done|lia| | |done].
    + intros j Hj. replace (S i + j)%nat with (i + S j)%nat by lia.
      apply Hc. lia.
    + by replace (S i + m)%nat with (i + S m)%nat by lia.
Qed.

(** As long as the polls say "Creating" the loop does not leave: after
    any number of rounds that all saw "Creating" it is still going. *)
Lemma wait_loop_going fuel : forall describes i k,
  (forall j, (j < fuel)%nat -> polls describes (i + j) (Some "Creating")) ->
  wait_loop fuel describes i (Some "Creating") k =
    (concat (replicate fuel round), k, Running).
Proof.
  induction fuel as [|fuel IH]; intros describes i k Hc.
  - cbn [wait_loop]. by rewrite code_is_true.
  - assert (H0 : polls describes i (Some "Creating")).
    { specialize (Hc 0%nat). rewrite Nat.add_0_r in Hc. apply Hc. lia. }
    rewrite (wait_loop_step _ _ _ _ _ H0).
    rewrite IH; [done|].
    intros j Hj. replace (S i + j)%nat with (i + S j)%nat by lia.
    apply Hc. lia.
Qed.

Lemma wait_run n fuel describes st k :
  (n <= fuel)%nat ->
  (forall i, (i < n)%nat -> polls describes i (Some "Creating")) ->
  polls describes n st -> st <> Some "Creating" ->
  wait_for_feature_group_creation_complete fuel describes k =
    (wait_trace n st, k,
     if code_is st "Created" then Returned tt
     else Raised (SystemExit (msg_failed st))).
Proof.
  intros Hf Hc Hp Hst. unfold wait_for_feature_group_creation_complete, wait_trace.
  destruct n as [|n].
  - unfold bind at 1. rewrite (poll_status_polls _ _ _ _ Hp).
    unfold bind at 1. rewrite wait_loop_done by done.
    unfold bind. simpl. by destruct (code_is st "Created").
  - unfold bind at 1.
    rewrite (poll_status_polls _ _ (Some "Creating")) by (apply Hc; lia).
    unfold bind at 1.
    rewrite (wait_loop_run n fuel describes 1 st k); [|lia| |done|done].
    + unfold bind. simpl. destruct (code_is st "Created"); simpl;
        by rewrite ?app_nil_r, <- ?app_assoc.
    + intros j Hj. apply Hc. simpl. lia.
Qed.

Lemma wait_going fuel describes k :
  (forall i, (i <= fuel)%nat -> polls describes i (Some "Creating")) ->
  wait_for_feature_group_creation_complete fuel describes k =
    (FeatureGroupDescribe feature_group_name :: concat (replicate fuel round),
     k, Running).
Proof.
  intros Hc. unfold wait_for_feature_group_creation_complete.
  unfold bind at 1. rewrite (poll_status_polls _ _ (Some "Creating")) by (apply Hc; lia).
  unfold bind at 1.
  by rewrite wait_loop_going; [|intros j Hj; apply Hc; simpl; lia].
Qed.

Lemma sleeps_rounds n :
  filter (fun ev => is_sleep ev = true) (concat (replicate n round))
  = replicate n (Sleep 5).
Proof. induction n as [|n IH]; [done|]. simpl. by rewrite <- IH. Qed.

Lemma sleeps_wait_trace n st :
  filter (fun ev => is_sleep ev = true) (wait_trace n st) = replicate n (Sleep 5).
Proof.
  unfold wait_trace. rewrite filter_cons, decide_False by done.
  rewrite filter_app, sleeps_rounds.
  destruct (code_is st "Created"); by rewrite app_nil_r.
Qed.

Lemma code_is_Created st : code_is st "Created" = true <-> st = Some "Created".
Proof. unfold code_is. apply bool_decide_eq_true. Qed.

(** ** The ingestion cell and the stage *)

Lemma ingestion_skipped ing k :
  feature_group_exists k = Some true ->
  ingestion_cell ing k = ([Print (msg_skip feature_group_name)], k, Returned tt).
Proof.
  intros H. unfold ingestion_cell, bind, get_feature_group_exists. by rewrite H.
Qed.

Lemma ingestion_unbound ing k :
  feature_group_exists k = None ->
  ingestion_cell ing k = ([], k, Raised (NameError "feature_group_exists")).
Proof.
  intros H. unfold ingestion_cell, bind, get_feature_group_exists. by rewrite H.
Qed.

Lemma ingestion_runs ing k :
  feature_group_exists k = Some false ->
  trace_of (ingestion_cell ing k) =
    [Print (msg_job feature_group_name); ProcessorRun (processing_job_name ing)]
    ++ match run_answer ing with
       | inl _ => []
       | inr _ =>
           WaitForProcessingJob (processing_job_name ing) ::
           match job_result ing with
           | inl _ => []
           | inr r => [Print r]
           end
       end.
Proof.
  intros H. unfold ingestion_cell, bind, get_feature_group_exists, call.
  rewrite H. simpl.
  destruct (run_answer ing) as [e|[]]; [done|].
  unfold bind. simpl. by destruct (job_result ing) as [e|r].
Qed.

Lemma pure_get_flag : pure get_feature_group_exists.
Proof.
  intros k. unfold get_feature_group_exists.
  by destruct (feature_group_exists k).
Qed.

Lemma pure_ingestion ing : pure (ingestion_cell ing).
Proof.
  unfold ingestion_cell. apply pure_bind; [apply pure_get_flag|].
  intros []; auto 10 with cells.
Qed.

Lemma quiet_get_flag p : quiet p get_feature_group_exists.
Proof.
  intros k. unfold get_feature_group_exists.
  by destruct (feature_group_exists k).
Qed.

Lemma quiet_ingestion_create ing : quiet is_create (ingestion_cell ing).
Proof.
  unfold ingestion_cell. apply quiet_bind; [apply quiet_get_flag|].
  intros []; auto 10 with cells.
Qed.

Lemma quiet_poll p describes i :
  (forall name, p (FeatureGroupDescribe name) = false) ->
  quiet p (poll_status describes i).
Proof. intros H. unfold poll_status. auto with cells. Qed.

Lemma pure_poll describes i : pure (poll_status describes i).
Proof. unfold poll_status. auto with cells. Qed.

Lemma quiet_wait_loop p describes fuel : forall i st,
  (forall name, p (FeatureGroupDescribe name) = false) ->
  (forall line, p (Print line) = false) ->
  (forall s, p (Sleep s) = false) ->
  quiet p (wait_loop fuel describes i st).
Proof.
  induction fuel as [|fuel IH]; intros i st H1 H2 H3; cbn [wait_loop];
    destruct (code_is st "Creating"); try apply quiet_ret; [by intros k|].
  repeat (apply quiet_bind; [auto using quiet_poll with cells|intros ?]).
  by apply IH.
Qed.

Lemma pure_wait_loop describes fuel : forall i st,
  pure (wait_loop fuel describes i st).
Proof.
  induction fuel as [|fuel IH]; intros i st; cbn [wait_loop];
    destruct (code_is st "Creating"); try apply pure_ret; [by intros k|].
  repeat (apply pure_bind; [auto using pure_poll with cells|intros ?]).
  by apply IH.
Qed.

Lemma quiet_wait p fuel describes :
  (forall name, p (FeatureGroupDescribe name) = false) ->
  (forall line, p (Print line) = false) ->
  (forall s, p (Sleep s) = false) ->
  quiet p (wait_for_feature_group_creation_complete fuel describes).
Proof.
  intros H1 H2 H3. unfold wait_for_feature_group_creation_complete.
  apply quiet_bind; [by apply quiet_poll|intros st].
  apply quiet_bind; [by apply quiet_wait_loop|intros st'].
  auto with cells.
Qed.

Lemma pure_wait fuel describes :
  pure (wait_for_feature_group_creation_complete fuel describes).
Proof.
  unfold wait_for_feature_group_creation_complete.
  apply pure_bind; [by apply pure_poll|intros st].
  apply pure_bind; [by apply pure_wait_loop|intros st'].
  auto with cells.
Qed.

Lemma quiet_rest_create fuel w : quiet is_create (rest_of_stage fuel w).
Proof.
  apply quiet_bind; [by apply quiet_wait|]. intros _. apply quiet_ingestion_create.
Qed.

Lemma pure_rest fuel w : pure (rest_of_stage fuel w).
Proof. apply pure_bind; [apply pure_wait|]. intros _. apply pure_ingestion. Qed.

Lemma rest_no_job fuel w k :
  feature_group_exists k = Some true ->
  count is_processor_run (trace_of (rest_of_stage fuel w k)) = 0%nat.
Proof.
  intros H. unfold rest_of_stage. rewrite bind_trace, count_app.
  rewrite (quiet_wait is_processor_run) by done.
  destruct (outcome_of _); [|done|done].
  rewrite pure_wait. by rewrite ingestion_skipped.
Qed.

Lemma stage_unfold fuel w k :
  stage fuel w k = bind (provisioning_cell (provisioning w)) (fun _ => rest_of_stage fuel w) k.
Proof. reflexivity. Qed.

(** A run of the stage in which the describe call found the group, or
    failed with "ResourceInUse": nothing is created, no job is submitted. *)
Lemma stage_exists fuel w k :
  provisioning_cell (provisioning w) k =
    ([DescribeFeatureGroup feature_group_name; Print (msg_exists feature_group_name)],
     set_flag true k, Returned tt) ->
  count is_create (trace_of (stage fuel w k)) = 0%nat
  /\ count is_processor_run (trace_of (stage fuel w k)) = 0%nat
  /\ feature_group_exists (kernel_of (stage fuel w k)) = Some true.
Proof.
  intros H. rewrite stage_unfold, bind_trace, bind_kernel, !count_app, H.
  change (outcome_of (_, _, Returned tt)) with (Returned tt : outcome unit).
  change (kernel_of (_, set_flag true k, _)) with (set_flag true k).
  split; [apply quiet_rest_create|]. split; [by apply rest_no_job|].
  by rewrite pure_rest.
Qed.

Lemma stage_created fuel w k e :
  describe_answer (provisioning w) = inl e ->
  service_code e = Some "ResourceNotFound" ->
  count is_create (trace_of (stage fuel w k)) = 1%nat
  /\ feature_group_exists (kernel_of (stage fuel w k)) = Some false.
Proof.
  intros H Hc.
  rewrite stage_unfold, bind_trace, bind_kernel, count_app.
  rewrite (provisioning_not_found _ k _ H Hc).
  destruct (create_answer (provisioning w)) as [e'|u].
  - by split.
  - change (outcome_of (_, _, Returned tt)) with (Returned tt : outcome unit).
    change (kernel_of (_, set_flag false k, _)) with (set_flag false k).
    rewrite quiet_rest_create, pure_rest. by split.
Qed.

(** *** Two runs against the feature store *)

Lemma fs_describe_found fs name : name ∈ fs -> fs_describe fs name = inr tt.
Proof. intros H. unfold fs_describe. by rewrite decide_True. Qed.

Lemma fs_describe_missing fs name :
  name ∉ fs ->
  fs_describe fs name = inl (ClientError (error_response "ResourceNotFound")).
Proof. intros H. unfold fs_describe. by rewrite decide_False. Qed.

Lemma service_code_response c : service_code (ClientError (error_response c)) = Some c.
Proof.
  unfold service_code, error_response.
  rewrite lookup_singleton_eq. simpl. by rewrite lookup_singleton_eq.
Qed.

(** After a run of the stage the group exists in the store. *)
Lemma stage_on_provisions fs fuel describes ing k :
  feature_group_name ∈ fs_after fs (trace_of (stage_on fs fuel describes ing k)).
Proof.
  unfold fs_after. destruct (decide (feature_group_name ∈ fs)) as [Hin|Hout].
  - destruct (existsb _ _); set_solver.
  - unfold stage_on. rewrite stage_unfold, bind_trace.
    cbn [provisioning]. unfold fs_world at 1.
    erewrite provisioning_not_found;
      [|by apply fs_describe_missing|apply service_code_response].
    cbn [trace_of fst snd app existsb is_create orb]. set_solver.
Qed.

Lemma stage_on_second_run fs fuel describes ing k :
  feature_group_name ∈ fs ->
  count is_create (trace_of (stage_on fs fuel describes ing k)) = 0%nat
  /\ count is_processor_run (trace_of (stage_on fs fuel describes ing k)) = 0%nat.
Proof.
  intros Hin.
  destruct (stage_exists fuel
    {| provisioning := fs_world fs; describes := describes; ingestion := ing |} k)
    as (H1 & H2 & _); [|by split].
  apply provisioning_found. by apply fs_describe_found.
Qed.

(** ** Explainability and deployment *)


Lemma explainability_failed pre w k e :
  download_answer w = inl e -> is_Exception e = true ->
  explainability_cell pre w k =
    (DownloadFile (shap_key pre) :: trace_of (explainability_handler w e k),
     kernel_of (explainability_handler w e k),
     outcome_of (explainability_handler w e k)).
Proof.
  intros H He. unfold explainability_cell, try_except, bind at 1.
  rewrite H. cbn [call emit bind raise]. rewrite He.
  by destruct (explainability_handler w e k) as [[t k'] o].
Qed.

Lemma explainability_404 pre w k e :
  download_answer w = inl e -> service_code e = Some "404" ->
  explainability_cell pre w k =
    ([DownloadFile (shap_key pre); Print "Running explainability job";
      RunExplainability],
     k,
     match job_answer w with
     | inl e' => Raised e'
     | inr _ => Returned tt
     end).
Proof.
  intros H Hc.
  rewrite (explainability_failed _ _ _ _ H (service_code_Exception _ _ Hc)).
  unfold explainability_handler, bind at 1 3 5.
  rewrite (error_code_service _ _ _ Hc).
  by destruct (job_answer w) as [e'|[]].
Qed.

Lemma explainability_other_code pre w k e c :
  download_answer w = inl e -> service_code e = Some c -> c <> "404" ->
  explainability_cell pre w k = ([DownloadFile (shap_key pre)], k, Returned tt).
Proof.
  intros H Hc Hne.
  rewrite (explainability_failed _ _ _ _ H (service_code_Exception _ _ Hc)).
  unfold explainability_handler, bind at 1 3 5.
  rewrite (error_code_service _ _ _ Hc).
  by rewrite code_is_false by congruence.
Qed.



Lemma deploy_reuses model_name first rest answer name k :
  first !! "EndpointName" = Some name ->
  deploy_cell model_name (first :: rest) answer k =
    ([Print (msg_existing name)], k, Returned tt).
Proof.
  intros H. unfold deploy_cell, getitem_dict.
  replace (0 <? Z.of_nat (length (first :: rest))) with true
    by (symmetry; apply Z.ltb_lt; simpl; lia).
  by rewrite H.
Qed.

Lemma deploy_creates model_name answer k :
  deploy_cell model_name [] answer k =
    ([Deploy (endpoint_name model_name)], k,
     match answer with
     | inl e => Raised e
     | inr _ => Returned tt
     end).
Proof. unfold deploy_cell. simpl. by destruct answer as [e|[]]. Qed.

Lemma deploy_nonempty_quiet model_name endpoints answer k :
  endpoints <> [] ->
  count is_deploy (trace_of (deploy_cell model_name endpoints answer k)) = 0%nat.
Proof.
  intros Hne. destruct endpoints as [|first rest]; [done|].
  unfold deploy_cell, getitem_dict.
  replace (0 <? Z.of_nat (length (first :: rest))) with true
    by (symmetry; apply Z.ltb_lt; simpl; lia).
  by destruct (first !! "EndpointName").
Qed.

(** ** Idempotency and error handling of the cells *)

(** C1.  The provisioning step is idempotent.  For every run of the stage:
    when the describe call fails with the code "ResourceNotFound" the group
    is created (one [create] call, the flag is [False]); when it fails with
    "ResourceInUse", or succeeds, the group counts as existing (the flag is
    [True]), nothing is created and no processing job is submitted; the
    ingestion cell skips [processor.run] whenever the flag is [True]; and
    against a feature store, whatever the first run did, a second run of
    the stage creates nothing and submits no job. *)
Theorem provisioning_idempotent (fuel : nat) (w : stage_world) (k : kernel) :
  let r := stage fuel w k in
  (forall e, describe_answer (provisioning w) = inl e ->
     service_code e = Some "ResourceNotFound" ->
     count is_create (trace_of r) = 1%nat
     /\ feature_group_exists (kernel_of r) = Some false)
  /\ (forall e, describe_answer (provisioning w) = inl e ->
        service_code e = Some "ResourceInUse" ->
        count is_create (trace_of r) = 0%nat
        /\ count is_processor_run (trace_of r) = 0%nat
        /\ feature_group_exists (kernel_of r) = Some true)
  /\ (describe_answer (provisioning w) = inr tt ->
        count is_create (trace_of r) = 0%nat
        /\ count is_processor_run (trace_of r) = 0%nat
        /\ feature_group_exists (kernel_of r) = Some true)
  /\ (feature_group_exists k = Some true ->
        count is_processor_run (trace_of (ingestion_cell (ingestion w) k)) = 0%nat)
  /\ (forall fs fuel' describes' ing' k',
        let first := stage_on fs fuel (describes w) (ingestion w) k in
        let second :=
          stage_on (fs_after fs (trace_of first)) fuel' describes' ing' k' in
        count is_create (trace_of second) = 0%nat
        /\ count is_processor_run (trace_of second) = 0%nat).
Proof.
  intros r. subst r. repeat split.
  - by eapply stage_created.
  - by eapply stage_created.
  - eapply stage_exists, provisioning_in_use; eassumption.
  - eapply stage_exists, provisioning_in_use; eassumption.
  - eapply stage_exists, provisioning_in_use; eassumption.
  - by eapply stage_exists, provisioning_found.
  - by eapply stage_exists, provisioning_found.
  - by eapply stage_exists, provisioning_found.
  - intros H. by rewrite ingestion_skipped.
  - apply stage_on_second_run, stage_on_provisions.
  - apply stage_on_second_run, stage_on_provisions.
Qed.

(** C2, at two service errors with unexpected codes.  A describe call that
    fails with "AccessDeniedException" and a download that fails with "403"
    do not abort their cells: each cell returns normally, the kernel is as
    before, and after the failed call nothing more is done or printed. *)
Theorem unexpected_error_is_swallowed :
  provisioning_cell
    {| describe_answer := inl (ClientError (error_response "AccessDeniedException"));
       create_answer := inr tt |} fresh_kernel
  = ([DescribeFeatureGroup feature_group_name], fresh_kernel, Returned tt)
  /\ explainability_cell "music-recommendation"
       {| download_answer := inl (ClientError (error_response "403"));
          job_answer := inr tt |} fresh_kernel
     = ([DownloadFile (shap_key "music-recommendation")], fresh_kernel, Returned tt).
Proof.
  split.
  - eapply provisioning_other_code;
      [reflexivity|apply service_code_response|done|done].
  - eapply explainability_other_code;
      [reflexivity|apply service_code_response|done].
Qed.


(** C6.  The wait loop polls every 5 seconds, goes on while the status is
    "Creating", and has no bound of its own.  If the polls say "Creating"
    [n] times and then [st], the function has slept [n] times 5 seconds,
    returns exactly when [st] is "Created" and raises [SystemExit] for any
    other [st]; before those [n] rounds are over, and for ever if the status
    stays "Creating", it is still polling. *)
Theorem wait_polls_until_terminal (describes : nat -> exn + dict string)
    (k : kernel) :
  (forall n st,
     (forall i, (i < n)%nat -> polls describes i (Some "Creating")) ->
     polls describes n st -> st <> Some "Creating" ->
     (forall fuel, (n <= fuel)%nat ->
        let r := wait_for_feature_group_creation_complete fuel describes k in
        trace_of r = wait_trace n st
        /\ filter (fun ev => is_sleep ev = true) (trace_of r) = replicate n (Sleep 5)
        /\ (outcome_of r = Returned tt <-> st = Some "Created")
        /\ (st <> Some "Created" ->
              outcome_of r = Raised (SystemExit (msg_failed st))))
     /\ (forall fuel, (fuel < n)%nat ->
           outcome_of (wait_for_feature_group_creation_complete fuel describes k)
           = Running))
  /\ ((forall i, polls describes i (Some "Creating")) ->
      forall fuel,
        let r := wait_for_feature_group_creation_complete fuel describes k in
        outcome_of r = Running
        /\ filter (fun ev => is_sleep ev = true) (trace_of r)
           = replicate fuel (Sleep 5)).
Proof.
  split.
  - intros n st Hc Hp Hst. split.
    + intros fuel Hf r. subst r. rewrite (wait_run n fuel describes st k) by done.
      unfold trace_of, outcome_of; simpl.
      split; [done|]. split; [apply sleeps_wait_trace|].
      destruct (code_is st "Created") eqn:E.
      * apply code_is_Created in E. by split.
      * assert (st <> Some "Created") by (rewrite <- code_is_Created; congruence).
        split; [|done]. split; [discriminate|done].
    + intros fuel Hf. rewrite wait_going; [done|]. intros i Hi. apply Hc. lia.
  - intros Hc fuel r. subst r. rewrite wait_going by (intros; apply Hc).
    unfold trace_of, outcome_of; simpl. split; [done|].
    rewrite filter_cons, decide_False by done. apply sleeps_rounds.
Qed.

(** C7.  Deployment reuses an in-service endpoint: the cell makes at most
    one [deploy] call; when the listing is not empty it makes none and
    names the first listed endpoint; it deploys exactly when the listing is
    empty. *)
Theorem deploy_only_when_absent (model_name : string)
    (endpoints : list (dict string)) (answer : exn + unit) (k : kernel) :
  let t := trace_of (deploy_cell model_name endpoints answer k) in
  (count is_deploy t <= 1)%nat
  /\ (endpoints <> [] -> count is_deploy t = 0%nat)
  /\ (forall first rest name,
        endpoints = first :: rest -> first !! "EndpointName" = Some name ->
        t = [Print (msg_existing name)])
  /\ (endpoints = [] -> t = [Deploy (endpoint_name model_name)])
  /\ (count is_deploy t = 1%nat <-> endpoints = []).
Proof.
  intros t. subst t.
  assert (Hne : endpoints <> [] ->
    count is_deploy (trace_of (deploy_cell model_name endpoints answer k)) = 0%nat)
    by apply deploy_nonempty_quiet.
  assert (He : endpoints = [] ->
    trace_of (deploy_cell model_name endpoints answer k)
    = [Deploy (endpoint_name model_name)])
    by (intros ->; by rewrite deploy_creates).
  repeat split; try done.
  - destruct endpoints as [|first rest];
      [rewrite He by done; vm_compute; lia|rewrite Hne by done; lia].
  - intros first rest name -> H. by rewrite (deploy_reuses _ _ _ _ _ _ H).
  - intros H. destruct endpoints as [|first rest]; [done|].
    rewrite Hne in H; done.
  - intros ->. by rewrite He.
Qed.

(** C10.  When the describe call raises an error whose code is neither
    "ResourceNotFound" nor "ResourceInUse", the provisioning cell assigns
    nothing to [feature_group_exists]; in a fresh kernel the ingestion cell
    then raises [NameError] on reading it, before any of its two branches.
    After the provisioning cell the flag is bound exactly when the describe
    call returned or raised one of the two codes. *)
Theorem flag_unbound_on_other_error (w : provisioning_world)
    (ing : ingestion_world) :
  (forall e, describe_answer w = inl e ->
     service_code e <> Some "ResourceNotFound" ->
     service_code e <> Some "ResourceInUse" ->
     (forall k, kernel_of (provisioning_cell w k) = k)
     /\ ingestion_cell ing (kernel_of (provisioning_cell w fresh_kernel))
        = ([], fresh_kernel, Raised (NameError "feature_group_exists")))
  /\ (is_Some (feature_group_exists (kernel_of (provisioning_cell w fresh_kernel)))
      <-> describe_answer w = inr tt
          \/ exists e, describe_answer w = inl e
               /\ (service_code e = Some "ResourceNotFound"
                   \/ service_code e = Some "ResourceInUse")).
Proof.
  split.
  - intros e H H1 H2.
    assert (Hk : forall k, kernel_of (provisioning_cell w k) = k)
      by (intros k; by apply (provisioning_flag_unassigned w k e)).
    split; [done|]. rewrite Hk. by apply ingestion_unbound.
  - destruct (describe_answer w) as [e|[]] eqn:H.
    + destruct (decide (service_code e = Some "ResourceNotFound")) as [H1|H1];
        [|destruct (decide (service_code e = Some "ResourceInUse")) as [H2|H2]].
      * rewrite (provisioning_not_found _ _ _ H H1). split; [|by eexists].
        intros _. right. exists e. by split; [|left].
      * rewrite (provisioning_in_use _ _ _ H H2). split; [|by eexists].
        intros _. right. exists e. by split; [|right].
      * destruct (provisioning_flag_unassigned w fresh_kernel e H H1 H2) as [-> _].
        split; [by intros [? ?]|].
        intros [?|(e' & [= <-] & [?|?])]; done.
    + rewrite provisioning_found by done. split; [by left|by eexists].
Qed.

Lemma provisioning_idempotent_witness :
  (count is_create
     (trace_of (stage 3 (sample_stage (service_error "ResourceNotFound")) fresh_kernel))
   = 1%nat
   /\ feature_group_exists
        (kernel_of (stage 3 (sample_stage (service_error "ResourceNotFound")) fresh_kernel))
      = Some false)
  /\ (count is_create
        (trace_of (stage 3 (sample_stage (service_error "ResourceInUse")) fresh_kernel))
      = 0%nat
      /\ count is_processor_run
           (trace_of (stage 3 (sample_stage (service_error "ResourceInUse")) fresh_kernel))
         = 0%nat
      /\ feature_group_exists
           (kernel_of (stage 3 (sample_stage (service_error "ResourceInUse")) fresh_kernel))
         = Some true)
  /\ (count is_create (trace_of (stage 3 (sample_stage (inr tt)) fresh_kernel)) = 0%nat
      /\ count is_processor_run
           (trace_of (stage 3 (sample_stage (inr tt)) fresh_kernel)) = 0%nat
      /\ feature_group_exists (kernel_of (stage 3 (sample_stage (inr tt)) fresh_kernel))
         = Some true)
  /\ count is_processor_run
       (trace_of (ingestion_cell sample_ingestion (set_flag true fresh_kernel)))
     = 0%nat.
Proof.
  split; [|split; [|split]].
  - apply (proj1 (provisioning_idempotent 3
             (sample_stage (service_error "ResourceNotFound")) fresh_kernel)
             (ClientError (error_response "ResourceNotFound")));
      vm_compute; reflexivity.
  - apply (proj1 (proj2 (provisioning_idempotent 3
             (sample_stage (service_error "ResourceInUse")) fresh_kernel))
             (ClientError (error_response "ResourceInUse")));
      vm_compute; reflexivity.
  - apply (proj1 (proj2 (proj2 (provisioning_idempotent 3
             (sample_stage (inr tt)) fresh_kernel))));
      reflexivity.
  - apply (proj1 (proj2 (proj2 (proj2 (provisioning_idempotent 3
             (sample_stage (inr tt)) (set_flag true fresh_kernel))))));
      reflexivity.
Defined.


Lemma sample_polls_creating i :
  (i < 2)%nat -> polls sample_describes i (Some "Creating").
Proof.
  intros Hi. destruct i as [|[|i]]; [| |lia];
    (eexists; split; [reflexivity|vm_compute; reflexivity]).
Defined.

Lemma sample_polls_created : polls sample_describes 2 (Some "Created").
Proof. eexists; split; [reflexivity|vm_compute; reflexivity]. Defined.

Lemma stuck_polls_creating i : polls stuck_describes i (Some "Creating").
Proof. eexists; split; [reflexivity|vm_compute; reflexivity]. Defined.

Lemma wait_polls_until_terminal_witness :
  (outcome_of (wait_for_feature_group_creation_complete 7 sample_describes fresh_kernel)
   = Returned tt <-> Some "Created" = Some "Created")
  /\ filter (fun ev => is_sleep ev = true)
       (trace_of (wait_for_feature_group_creation_complete 7 sample_describes fresh_kernel))
     = [Sleep 5; Sleep 5]
  /\ outcome_of (wait_for_feature_group_creation_complete 1 sample_describes fresh_kernel)
     = Running
  /\ outcome_of (wait_for_feature_group_creation_complete 40 stuck_describes fresh_kernel)
     = Running.
Proof.
  destruct (proj1 (wait_polls_until_terminal sample_describes fresh_kernel)
              2%nat (Some "Created") sample_polls_creating sample_polls_created
              ltac:(discriminate)) as [Hrun Hgoing].
  destruct (Hrun 7%nat ltac:(lia)) as (_ & Hsleep & Hret & _).
  split; [exact Hret|]. split; [exact Hsleep|]. split; [apply Hgoing; lia|].
  apply (proj2 (wait_polls_until_terminal stuck_describes fresh_kernel)
           stuck_polls_creating 40%nat).
Defined.

Lemma deploy_only_when_absent_witness :
  count is_deploy
    (trace_of (deploy_cell "music-rec-model"
       [{[ "EndpointName" := "music-rec-model-endpoint-notebooks" ]}] (inr tt)
       fresh_kernel)) = 0%nat
  /\ trace_of (deploy_cell "music-rec-model"
       [{[ "EndpointName" := "music-rec-model-endpoint-notebooks" ]}] (inr tt)
       fresh_kernel)
     = [Print (msg_existing "music-rec-model-endpoint-notebooks")]
  /\ trace_of (deploy_cell "music-rec-model" [] (inr tt) fresh_kernel)
     = [Deploy (endpoint_name "music-rec-model")].
Proof.
  split; [|split].
  - apply (proj1 (proj2 (deploy_only_when_absent "music-rec-model"
             [{[ "EndpointName" := "music-rec-model-endpoint-notebooks" ]}]
             (inr tt) fresh_kernel))).
    discriminate.
  - apply (proj1 (proj2 (proj2 (deploy_only_when_absent "music-rec-model"
             [{[ "EndpointName" := "music-rec-model-endpoint-notebooks" ]}]
             (inr tt) fresh_kernel)))
             _ [] "music-rec-model-endpoint-notebooks" eq_refl).
    vm_compute; reflexivity.
  - apply (proj1 (proj2 (proj2 (proj2 (deploy_only_when_absent "music-rec-model"
             [] (inr tt) fresh_kernel))))).
    reflexivity.
Defined.

Lemma flag_unbound_on_other_error_witness :
  (forall k,
     kernel_of (provisioning_cell
       {| describe_answer := service_error "ThrottlingException";
          create_answer := inr tt |} k) = k)
  /\ ingestion_cell sample_ingestion
       (kernel_of (provisioning_cell
          {| describe_answer := service_error "ThrottlingException";
             create_answer := inr tt |} fresh_kernel))
     = ([], fresh_kernel, Raised (NameError "feature_group_exists")).
Proof.
  apply (proj1 (flag_unbound_on_other_error
           {| describe_answer := service_error "ThrottlingException";
              create_answer := inr tt |} sample_ingestion)
           (ClientError (error_response "ThrottlingException")));
    [reflexivity| |]; vm_compute; discriminate.
Defined.

(** ** Frames: the cross join and the reprojection *)

Section FrameFacts.

Context {V : Type}.
Implicit Types (df : DataFrame V) (row : list V) (cols : list string).

Lemma positions_from_spec cols : forall i label,
  Forall (fun j => exists n, j = (i + n)%nat /\ cols !! n = Some label)
    (positions_from i label cols).
Proof.
  induction cols as [|c cols IH]; intros i label; simpl; [constructor|].
  apply Forall_app. split.
  - case_bool_decide as Hc; [|constructor].
    repeat constructor. exists 0%nat. split; [lia|]. by rewrite Hc.
  - eapply Forall_impl; [apply IH|]. intros j (n & -> & Hn).
    exists (S n). split; [lia|done].
Qed.

Lemma positions_from_length cols : forall i label,
  length (positions_from i label cols) = occurrences label cols.
Proof.
  unfold occurrences.
  induction cols as [|c cols IH]; intros i label; simpl; [done|].
  rewrite length_app, IH, filter_cons.
  case_bool_decide; [by rewrite decide_True|by rewrite decide_False].
Qed.

(** A label that exactly one column carries has exactly one position. *)
Lemma positions_unique label cols :
  occurrences label cols = 1%nat ->
  exists j, positions label cols = [j] /\ cols !! j = Some label.
Proof.
  intros H. unfold positions.
  pose proof (positions_from_length cols 0 label) as Hl.
  pose proof (positions_from_spec cols 0 label) as Hs.
  rewrite H in Hl.
  destruct (positions_from 0 label cols) as [|j [|j' l]]; try done.
  exists j. split; [done|].
  apply Forall_inv in Hs. by destruct Hs as (n & -> & Hn).
Qed.

Lemma take_cells_app {A} idx1 idx2 (l : list A) :
  take_cells (idx1 ++ idx2) l = take_cells idx1 l ++ take_cells idx2 l.
Proof. unfold take_cells. apply omap_app. Qed.

Lemma take_cells_cons {A} j idx (l : list A) :
  take_cells (j :: idx) l =
    match l !! j with
    | Some x => x :: take_cells idx l
    | None => take_cells idx l
    end.
Proof. reflexivity. Qed.

Lemma take_cells_length {A} idx (l : list A) :
  Forall (fun j => (j < length l)%nat) idx ->
  length (take_cells idx l) = length idx.
Proof.
  induction 1 as [|j idx Hj _ IH]; [done|].
  rewrite take_cells_cons.
  destruct (lookup_lt_is_Some_2 l j Hj) as [x ->]. simpl. by rewrite IH.
Qed.

(** The positions that [getitem] reads, when every label has one column. *)
Lemma selection_unique labels cols :
  (forall l, l ∈ labels -> occurrences l cols = 1%nat) ->
  let idx := l ← labels; positions l cols in
  take_cells idx cols = labels
  /\ length idx = length labels
  /\ Forall (fun j => (j < length cols)%nat) idx
  /\ filter (fun l => positions l cols = []) labels = [].
Proof.
  induction labels as [|l labels IH]; intros H; [done|].
  destruct (positions_unique l cols) as (j & Hj & Hl); [apply H; left|].
  destruct IH as (IH1 & IH2 & IH3 & IH4); [intros l' Hl'; apply H; by right|].
  cbn [mbind list_bind]. rewrite Hj. repeat split.
  - rewrite take_cells_app, IH1, take_cells_cons. by rewrite Hl.
  - simpl. by rewrite IH2.
  - constructor; [by eapply lookup_lt_Some|done].
  - rewrite filter_cons, decide_False by (rewrite Hj; discriminate). exact IH4.
Qed.

Lemma cross_one_row (rows : list (list V)) (r : list V) :
  (l ← rows; r' ← [r]; [l ++ r']) = (fun l => l ++ r) <$> rows.
Proof.
  induction rows as [|l rows IH]; [done|].
  rewrite fmap_cons, <- IH. reflexivity.
Qed.

(** The cross join with a frame of one row keeps the number of rows. *)
Lemma merge_cross_pivot_rows df (df_user : list (string * V)) :
  length (values (merge_cross df (pivot df_user))) = length (values df).
Proof.
  unfold merge_cross, pivot. cbn [values].
  by rewrite cross_one_row, length_fmap.
Qed.

Lemma merge_cross_pivot_rectangular df (df_user : list (string * V)) :
  rectangular df -> rectangular (merge_cross df (pivot df_user)).
Proof.
  unfold rectangular, merge_cross, pivot. cbn [values columns]. intros H.
  rewrite cross_one_row. apply Forall_fmap.
  eapply Forall_impl; [exact H|]. intros row Hrow. simpl.
  by rewrite !length_app, !length_fmap, Hrow.
Qed.

(** [getitem] with labels that each name one column: the frame has the
    labels as its columns, in their order, and the same number of rows. *)
Lemma getitem_unique labels df :
  rectangular df ->
  (forall l, l ∈ labels -> occurrences l (columns df) = 1%nat) ->
  exists df', getitem labels df = inr df'
    /\ columns df' = labels
    /\ length (values df') = length (values df)
    /\ rectangular df'.
Proof.
  intros Hrect H.
  destruct (selection_unique labels (columns df) H) as (H1 & H2 & H3 & H4).
  unfold getitem. rewrite H4. eexists. split; [reflexivity|].
  cbn [columns values]. split; [done|]. split; [by rewrite length_fmap|].
  unfold rectangular. cbn [columns values]. rewrite H1.
  apply Forall_fmap. eapply Forall_impl; [exact Hrect|].
  intros row Hrow. simpl. rewrite take_cells_length; [done|by rewrite Hrow].
Qed.

(** A label that no column carries makes [getitem] fail. *)
Lemma getitem_missing labels df l :
  l ∈ labels -> occurrences l (columns df) = 0%nat ->
  exists missing, getitem labels df = inl (KeyError missing) /\ l ∈ missing.
Proof.
  intros Hl H0. unfold getitem.
  assert (Hin : l ∈ filter (fun l => positions l (columns df) = []) labels).
  { apply list_elem_of_filter. split; [|done].
    apply length_zero_iff_nil. unfold positions. by rewrite positions_from_length. }
  destruct (filter _ labels) as [|m ms] eqn:E; [by apply elem_of_nil in Hin|].
  by eexists.
Qed.

End FrameFacts.

(** C4 as stated fails: a feature name that is no column of the joined
    frame makes the reprojection raise [KeyError]. *)
Lemma reprojection_missing_column :
  ~ reprojects ["energy"; "danceability"]
      {| columns := ["trackId"; "energy"]; values := [[101; 7]; [102; 9]] |}
      [("userId", 11005)].
Proof. intros (df & H & _). vm_compute in H. discriminate. Qed.

(** Nor is success enough: a label that two columns carry after the
    lower-casing selects both of them. *)
Lemma reprojection_duplicated_column :
  inference_df ["eventtime"]
    {| columns := ["trackId"; "eventtime"]; values := [[101; 7]] |}
    [("userId", 11005); ("EventTime", 3)]
  = inr {| columns := ["eventtime"; "eventtime"]; values := [[7; 3]] |}.
Proof. vm_compute. reflexivity. Qed.

(** In general: a feature name that no column of the joined frame carries
    makes the cell fail with a [KeyError] that names it. *)
Lemma inference_df_missing {V} (feature_names : list string)
    (df_tracks : DataFrame V) (df_user : list (string * V)) f :
  f ∈ feature_names -> occurrences f (data_columns df_tracks df_user) = 0%nat ->
  exists missing,
    inference_df feature_names df_tracks df_user = inl (KeyError missing)
    /\ f ∈ missing.
Proof. intros Hf H0. by apply getitem_missing. Qed.

(** C4, amended.  For every tracks frame of N rows and every user record,
    if each feature name is the label of exactly one column of the joined,
    lower-cased frame, the cross join followed by the reprojection yields a
    frame of exactly N rows whose columns are the feature names in their
    order. *)
Theorem inference_df_reprojects {V} (feature_names : list string)
    (df_tracks : DataFrame V) (df_user : list (string * V)) :
  rectangular df_tracks ->
  (forall f, f ∈ feature_names ->
     occurrences f (data_columns df_tracks df_user) = 1%nat) ->
  reprojects feature_names df_tracks df_user.
Proof.
  intros Hrect Hocc. unfold reprojects, inference_df.
  destruct (getitem_unique feature_names
              (lower_columns (merge_cross df_tracks (pivot df_user))))
    as (df & Hdf & Hcols & Hrows & Hr); [|exact Hocc|].
  - apply (merge_cross_pivot_rectangular df_tracks df_user) in Hrect.
    unfold rectangular, lower_columns in *. cbn [columns values] in *.
    by rewrite length_fmap.
  - exists df. split; [done|]. split; [|split; [done|]].
    + rewrite Hrows. apply merge_cross_pivot_rows.
    + unfold rectangular in Hr. by rewrite Hcols in Hr.
Qed.

Lemma inference_df_reprojects_witness :
  reprojects ["energy"; "userid"]
    {| columns := ["trackId"; "Energy"]; values := [[101; 7]; [102; 9]] |}
    [("userId", 11005)].
Proof.
  apply inference_df_reprojects.
  - repeat constructor.
  - intros f Hf. apply list_elem_of_In in Hf. simpl in Hf.
    destruct Hf as [<-|[<-|[]]]; vm_compute; reflexivity.
Defined.

(** ** The wire format *)

Lemma split_on_field sep (f : string) :
  contains sep f = false -> split_on sep f = [f].
Proof.
  induction f as [|c f IH]; [done|]. simpl.
  destruct (Ascii.eqb c sep); [done|]. simpl. intros H. by rewrite IH.
Qed.

Lemma split_on_app sep (f rest : string) :
  contains sep f = false ->
  split_on sep (f +:+ String sep rest) = f :: split_on sep rest.
Proof.
  induction f as [|c f IH]; simpl.
  - intros _. by rewrite Ascii.eqb_refl.
  - destruct (Ascii.eqb c sep); [done|]. simpl. intros H. by rewrite IH.
Qed.

(** Splitting at the commas undoes the joining of fields without commas. *)
Lemma split_join (fields : list string) :
  fields <> [] ->
  Forall (fun f => contains "," f = false) fields ->
  split_on "," (join "," fields) = fields.
Proof.
  induction fields as [|f fields IH]; [done|]. intros _ Hall.
  apply Forall_cons in Hall as [Hf Hall].
  destruct fields as [|g fields].
  - simpl. by apply split_on_field.
  - change (join "," (f :: g :: fields))
      with (f +:+ String "," (join "," (g :: fields))).
    rewrite split_on_app by done. by rewrite IH.
Qed.

Lemma append_empty (s t : string) : s +:+ t = "" -> s = "".
Proof. by destruct s. Qed.

Lemma join_nonempty (fields : list string) :
  fields <> [] -> Forall (fun f => f <> "") fields -> join "," fields <> "".
Proof.
  destruct fields as [|f [|g fields]]; [done| |]; intros _ Hall;
    apply Forall_cons in Hall as [Hf _]; simpl; [done|].
  intros H. by apply append_empty in H.
Qed.

Section WireFormat.

Context {V : Type} (str : V -> string) (parse : string -> option V).

Lemma mapM_renders_back (row : list V) :
  Forall (renders_back str parse) row -> mapM parse (str <$> row) = Some row.
Proof.
  intros H. apply mapM_Some. induction H as [|v row (_ & _ & Hv) _ IH]; simpl;
    by constructor.
Qed.

(** A row whose cells render back is read back from its line. *)
Lemma row_round_trip (row : list V) :
  Forall (renders_back str parse) row ->
  parse_row parse (format_row str row) = Some row.
Proof.
  intros H. unfold parse_row, format_row.
  destruct row as [|v row]; [done|].
  rewrite bool_decide_eq_false_2.
  - rewrite split_join; [by apply mapM_renders_back|done|].
    apply Forall_fmap. eapply Forall_impl; [exact H|]. by intros x (_ & Hx & _).
  - apply join_nonempty; [done|].
    apply Forall_fmap. eapply Forall_impl; [exact H|]. by intros x (Hx & _).
Qed.

End WireFormat.

(** Python's rendering of an [int] is such a field. *)
Lemma digits_no_comma d : contains "," (NilEmpty.string_of_uint d) = false.
Proof. induction d; simpl; done. Qed.

Lemma str_uint_no_comma d : contains "," (NilZero.string_of_uint d) = false.
Proof. destruct d; try done; apply (digits_no_comma (_ _)). Qed.

Lemma str_int_no_comma z : contains "," (str_int z) = false.
Proof.
  unfold str_int. destruct (Z.to_int z) as [d|d]; simpl.
  - apply str_uint_no_comma.
  - apply str_uint_no_comma.
Qed.

Lemma str_int_nonempty z : str_int z <> "".
Proof.
  unfold str_int. destruct (Z.to_int z) as [d|d]; simpl; [|done].
  by destruct d.
Qed.

Lemma parse_str_int z : parse_int (str_int z) = Some z.
Proof.
  unfold parse_int, str_int. rewrite NilZero.isi.
  - simpl. by rewrite DecimalZ.of_to.
  - destruct z as [|p|p]; simpl; try done.
    intros [= H]. by apply (DecimalPos.Unsigned.to_uint_nonnil p).
  - destruct z as [|p|p]; simpl; try done.
    intros [= H]. by apply (DecimalPos.Unsigned.to_uint_nonnil p).
Qed.

Lemma int_renders_back z : renders_back str_int parse_int z.
Proof.
  split; [apply str_int_nonempty|]. split; [apply str_int_no_comma|apply parse_str_int].
Qed.

(** The frames of integers round-trip. *)
Lemma int_rows_round_trip (rows : list (list Z)) :
  mapM (parse_row parse_int) (format_row str_int <$> rows) = Some rows.
Proof.
  apply mapM_Some. induction rows as [|row rows IH]; simpl; constructor; [|done].
  apply row_round_trip, Forall_forall. intros; apply int_renders_back.
Qed.

Import Values.


(** A frame without a float column does not give a float64 array. *)
Lemma common_dtype_no_float dtypes :
  float64 ∉ dtypes -> common_dtype dtypes <> float64.
Proof.
  intros H. unfold common_dtype.
  destruct (existsb is_object dtypes); [done|].
  destruct (existsb is_float64 dtypes) eqn:E; [|done].
  apply existsb_exists in E as (d & Hin & Hd).
  destruct d; try discriminate. by apply list_elem_of_In in Hin.
Qed.









(** ** Ranking *)

Section Ranking.

Context {V : Type} (num : V -> Q).
Implicit Types (k : list V -> Q) (a b x y : list V) (rows : list (list V)).

Lemma before_total ascending (p q : Q) :
  before ascending p q = false -> before ascending q p = true.
Proof.
  unfold before. destruct ascending; intros H; apply Qle_bool_iff;
    apply Qlt_le_weak, Qnot_le_lt; intros Hle; apply Qle_bool_iff in Hle; congruence.
Qed.

Lemma insert_sorted_HdRel ascending k a x rows :
  ordered ascending k a x -> HdRel (ordered ascending k) a rows ->
  HdRel (ordered ascending k) a (insert_sorted ascending k x rows).
Proof.
  intros Hax Hrows. destruct rows as [|y rows]; simpl; [by constructor|].
  destruct (before ascending (k x) (k y)); constructor; [done|].
  by apply HdRel_inv in Hrows.
Qed.

Lemma insert_sorted_Sorted ascending k x rows :
  Sorted (ordered ascending k) rows ->
  Sorted (ordered ascending k) (insert_sorted ascending k x rows).
Proof.
  induction 1 as [|y rows Hs IH Hhd]; simpl; [by repeat constructor|].
  destruct (before ascending (k x) (k y)) eqn:E.
  - constructor; [by constructor|by constructor].
  - constructor; [done|]. apply insert_sorted_HdRel; [|done].
    by apply before_total.
Qed.

Lemma sort_rows_Sorted ascending k rows :
  Sorted (ordered ascending k) (sort_rows ascending k rows).
Proof.
  induction rows as [|x rows IH]; simpl; [constructor|].
  by apply insert_sorted_Sorted.
Qed.

Lemma insert_sorted_Permutation ascending k (x : list V) rows :
  insert_sorted ascending k x rows ≡ₚ x :: rows.
Proof.
  induction rows as [|y rows IH]; simpl; [done|].
  destruct (before ascending (k x) (k y)); [done|].
  rewrite IH. apply Permutation_swap.
Qed.

(** Sorting rearranges the rows and loses none. *)
Lemma sort_rows_Permutation ascending k (rows : list (list V)) :
  sort_rows ascending k rows ≡ₚ rows.
Proof.
  induction rows as [|x rows IH]; simpl; [done|].
  by rewrite insert_sorted_Permutation, IH.
Qed.

Lemma sort_rows_length ascending k (rows : list (list V)) :
  length (sort_rows ascending k rows) = length rows.
Proof. apply Permutation_length, sort_rows_Permutation. Qed.

Lemma take_Sorted {A} (R : A -> A -> Prop) n (l : list A) :
  Sorted R l -> Sorted R (take n l).
Proof.
  intros H. revert n. induction H as [|x l Hs IH Hhd]; intros [|n]; simpl;
    try constructor; [apply IH|].
  destruct Hhd as [|y l Hxy]; [destruct n; constructor|].
  destruct n; simpl; by constructor.
Qed.

Lemma ordered_descending i rows :
  Sorted (ordered false (key num i)) rows -> descending num i rows.
Proof.
  unfold descending. intros H.
  assert (Himpl : forall a rows',
    HdRel (ordered false (key num i)) a rows' ->
    HdRel (fun a b => (key num i b <= key num i a)%Q) a rows').
  { intros a rows' [|b l Hab]; constructor. by apply Qle_bool_iff. }
  induction H; constructor; auto.
Qed.

(** C5.  For every frame of N rows with one column "rating" and every
    playlist length K, the playlist is in descending order of the rating,
    has min(K, N) rows, and its rows are rows of the frame. *)
Theorem playlist_top_k (K : nat) (inference_df : DataFrame V) (i : nat) :
  positions "rating" (columns inference_df) = [i] ->
  exists pl, playlist num (Z.of_nat K) inference_df = inr pl
    /\ descending num i (values pl)
    /\ length (values pl) = Nat.min K (length (values inference_df))
    /\ values pl ⊆+ values inference_df.
Proof.
  intros Hi. unfold playlist, sort_values. rewrite Hi.
  eexists. split; [reflexivity|]. unfold head. cbn [values columns].
  replace (0 <=? Z.of_nat K) with true by (symmetry; apply Z.leb_le; lia).
  rewrite Nat2Z.id. split; [|split].
  - apply ordered_descending, take_Sorted, sort_rows_Sorted.
  - by rewrite length_take, sort_rows_length.
  - etrans; [apply sublist_submseteq, sublist_take|].
    apply Permutation_submseteq, sort_rows_Permutation.
Qed.

End Ranking.

Lemma playlist_top_k_witness :
  exists pl,
    playlist inject_Z 2
      {| columns := ["rating"; "trackid"];
         values := [[1; 101]; [5; 102]; [3; 103]; [4; 104]] |} = inr pl
    /\ descending inject_Z 0 (values pl)
    /\ length (values pl) = 2%nat
    /\ values pl ⊆+ [[1; 101]; [5; 102]; [3; 103]; [4; 104]].
Proof.
  apply (playlist_top_k inject_Z 2
           {| columns := ["rating"; "trackid"];
              values := [[1; 101]; [5; 102]; [3; 103]; [4; 104]] |} 0).
  vm_compute. reflexivity.
Defined.

(** ** The training configuration *)

Lemma replicas_exact (p : Z) :
  (p | total_accelerators) -> p <> 0 -> p * replicas p = total_accelerators.
Proof.
  intros [q Hq] Hp. unfold replicas. rewrite Hq, Z.div_mul by done. lia.
Qed.

(** C9.  The training job is configured with 16 partitions (the pipeline
    parallel degree) on 4 instances of 8 processes each: 32 accelerators,
    which leaves a data-parallel degree of 2, and 16 times 2 is 32. *)
Theorem partitions_times_replicas :
  exists p, smdistributed_parameters = Some p
    /\ partitions p = pipeline_parallel_degree
    /\ partitions p = 16
    /\ mp_ddp p = true
    /\ instance_count = 4
    /\ processes_per_host mpi = 8
    /\ total_accelerators = 32
    /\ replicas (partitions p) = 2
    /\ partitions p * replicas (partitions p) = total_accelerators.
Proof.
  eexists. split; [vm_compute; reflexivity|].
  do 7 (split; [reflexivity|]).
  apply replicas_exact; [by exists 2|done].
Qed.

(** * Further properties of the notebooks *)

Import JobName FeatureDefinitions Scoring.

(** ** The feature-group notebook *)




(** X1.  An exception of [feature_group.create] is not handled: the call
    is made inside the [except] clause, so the exception ends the cell and
    the run, whatever its error code, with the flag left [False]. *)
Theorem create_failure_escapes (fuel : nat) (w : stage_world) (k : kernel)
    (e e' : exn) :
  describe_answer (provisioning w) = inl e ->
  service_code e = Some "ResourceNotFound" ->
  create_answer (provisioning w) = inl e' ->
  stage fuel w k =
    ([DescribeFeatureGroup feature_group_name;
      Print (msg_creating feature_group_name);
      FeatureGroupCreate feature_group_name],
     set_flag false k, Raised e').
Proof.
  intros H Hc He'. rewrite stage_unfold. unfold bind.
  rewrite (provisioning_not_found _ k _ H Hc). by rewrite He'.
Qed.

Lemma create_failure_escapes_witness :
  stage 3
    {| provisioning :=
         {| describe_answer := service_error "ResourceNotFound";
            create_answer := service_error "ResourceInUse" |};
       describes := sample_describes;
       ingestion := sample_ingestion |} fresh_kernel
  = ([DescribeFeatureGroup feature_group_name;
      Print (msg_creating feature_group_name);
      FeatureGroupCreate feature_group_name],
     set_flag false fresh_kernel,
     Raised (ClientError (error_response "ResourceInUse"))).
Proof.
  apply (create_failure_escapes 3 _ fresh_kernel
           (ClientError (error_response "ResourceNotFound")));
    [reflexivity|vm_compute; reflexivity|reflexivity].
Defined.

(** X2.  An exception that carries no service response (no [response]
    attribute, or a response without ['Error']) is replaced by the
    [AttributeError] of the handler's own look-up, in the provisioning cell
    and in the explainability cell alike; an exception that is no
    [Exception] passes through.  Either way the cell has done nothing but
    the failed call. *)
Theorem exception_without_response (e : exn) :
  (forall response, e = ClientError response -> response !! "Error" = None) ->
  (forall w k, describe_answer w = inl e ->
     exists e', provisioning_cell w k
                = ([DescribeFeatureGroup feature_group_name], k, Raised e')
       /\ (is_Exception e = true -> exists msg, e' = AttributeError msg)
       /\ (is_Exception e = false -> e' = e))
  /\ (forall pre w k, download_answer w = inl e ->
        exists e', explainability_cell pre w k
                   = ([DownloadFile (shap_key pre)], k, Raised e')
          /\ (is_Exception e = true -> exists msg, e' = AttributeError msg)
          /\ (is_Exception e = false -> e' = e)).
Proof.
  intros Hresp.
  assert (Hcode : forall k, is_Exception e = true ->
            exists msg, error_code e k = ([], k, Raised (AttributeError msg))).
  { intros k _. destruct e as [response| | | | |]; simpl; try by eexists.
    rewrite (Hresp response eq_refl). by eexists. }
  split.
  - intros w k H. destruct (is_Exception e) eqn:He.
    + destruct (Hcode k eq_refl) as [msg Hmsg].
      exists (AttributeError msg).
      rewrite (provisioning_failed _ _ _ H He).
      unfold provisioning_handler, bind. rewrite Hmsg.
      split; [done|]. split; [by eexists|done].
    + exists e. split; [|by split].
      unfold provisioning_cell, try_except, bind at 1 2.
      rewrite H. cbn [call emit bind raise]. by rewrite He.
  - intros pre w k H. destruct (is_Exception e) eqn:He.
    + destruct (Hcode k eq_refl) as [msg Hmsg].
      exists (AttributeError msg).
      rewrite (explainability_failed _ _ _ _ H He).
      unfold explainability_handler, bind. rewrite Hmsg.
      split; [done|]. split; [by eexists|done].
    + exists e. split; [|by split].
      unfold explainability_cell, try_except, bind at 1.
      rewrite H. cbn [call emit bind raise]. by rewrite He.
Qed.

Lemma exception_without_response_witness :
  exists e',
    provisioning_cell
      {| describe_answer := inl (OtherException "EndpointConnectionError");
         create_answer := inr tt |} fresh_kernel
    = ([DescribeFeatureGroup feature_group_name], fresh_kernel, Raised e')
    /\ (is_Exception (OtherException "EndpointConnectionError") = true ->
        exists msg, e' = AttributeError msg)
    /\ (is_Exception (OtherException "EndpointConnectionError") = false ->
        e' = OtherException "EndpointConnectionError").
Proof.
  apply (proj1 (exception_without_response
                  (OtherException "EndpointConnectionError")
                  ltac:(discriminate))).
  reflexivity.
Defined.

Lemma wait_loop_poll_fails m : forall fuel describes i e k,
  (m < fuel)%nat ->
  (forall j, (j < m)%nat -> polls describes (i + j) (Some "Creating")) ->
  describes (i + m)%nat = inl e ->
  wait_loop fuel describes i (Some "Creating") k =
    (concat (replicate (S m) round), k, Raised e).
Proof.
  induction m as [|m IH]; intros fuel describes i e k Hf Hc He;
    (destruct fuel as [|fuel]; [lia|]).
  - rewrite Nat.add_0_r in He. cbn [wait_loop]. rewrite code_is_true.
    unfold bind at 1 2 3. cbn [emit]. unfold poll_status, call, bind.
    by rewrite He.
  - assert (H0 : polls describes i (Some "Creating")).
    { specialize (Hc 0%nat). rewrite Nat.add_0_r in Hc. apply Hc. lia. }
    rewrite (wait_loop_step _ _ _ _ _ H0).
    rewrite (IH fuel describes (S i) e k); [done|lia| |].
    + intros j Hj. replace (S i + j)%nat with (i + S j)%nat by lia.
      apply Hc. lia.
    + by replace (S i + m)%nat with (i + S m)%nat by lia.
Qed.

(** X3.  The wait function does not handle a failing poll: when the
    status was "Creating" [n] times and the next [describe] raises, the
    exception leaves the function after [n] pauses, and neither the
    [SystemExit] nor the success message is reached. *)
Theorem wait_poll_failure (describes : nat -> exn + dict string) (n fuel : nat)
    (e : exn) (k : kernel) :
  (forall i, (i < n)%nat -> polls describes i (Some "Creating")) ->
  describes n = inl e -> (n <= fuel)%nat ->
  wait_for_feature_group_creation_complete fuel describes k =
    (FeatureGroupDescribe feature_group_name :: concat (replicate n round),
     k, Raised e).
Proof.
  intros Hc He Hf. unfold wait_for_feature_group_creation_complete.
  destruct n as [|n].
  - unfold bind at 1. unfold poll_status, call, bind. by rewrite He.
  - unfold bind at 1.
    rewrite (poll_status_polls _ _ (Some "Creating")) by (apply Hc; lia).
    unfold bind at 1.
    rewrite (wait_loop_poll_fails n fuel describes 1 e k); [done|lia| |done].
    intros j Hj. apply Hc. simpl. lia.
Qed.

Lemma wait_poll_failure_witness :
  wait_for_feature_group_creation_complete 5
    (fun i => if (i <? 2)%nat then stuck_describes i
              else inl (OtherException "ReadTimeoutError")) fresh_kernel
  = (FeatureGroupDescribe feature_group_name :: concat (replicate 2 round),
     fresh_kernel, Raised (OtherException "ReadTimeoutError")).
Proof.
  apply wait_poll_failure; [|reflexivity|lia].
  intros i Hi. destruct i as [|[|i]]; [| |lia]; apply stuck_polls_creating.
Defined.

(** X4.  With the flag [False] the ingestion cell submits exactly one
    processing job and then waits for the job of that same name.  If the
    submission raises, the exception leaves the cell and nothing is waited
    for; if the wait raises, its exception leaves the cell. *)
Theorem ingestion_submits_one_job (ing : ingestion_world) (k : kernel) :
  feature_group_exists k = Some false ->
  count is_processor_run (trace_of (ingestion_cell ing k)) = 1%nat
  /\ (forall e, run_answer ing = inl e ->
        ingestion_cell ing k =
          ([Print (msg_job feature_group_name);
            ProcessorRun (processing_job_name ing)], k, Raised e))
  /\ (forall e, run_answer ing = inr tt -> job_result ing = inl e ->
        ingestion_cell ing k =
          ([Print (msg_job feature_group_name);
            ProcessorRun (processing_job_name ing);
            WaitForProcessingJob (processing_job_name ing)], k, Raised e))
  /\ (forall r, run_answer ing = inr tt -> job_result ing = inr r ->
        ingestion_cell ing k =
          ([Print (msg_job feature_group_name);
            ProcessorRun (processing_job_name ing);
            WaitForProcessingJob (processing_job_name ing);
            Print r], k, Returned tt)).
Proof.
  intros H. split; [|split; [|split]].
  - rewrite (ingestion_runs _ _ H).
    destruct (run_answer ing) as [e|u]; [done|].
    by destruct (job_result ing).
  - intros e He. unfold ingestion_cell, bind, get_feature_group_exists, call.
    by rewrite H, He.
  - intros e Hr He. unfold ingestion_cell, bind, get_feature_group_exists, call.
    by rewrite H, Hr, He.
  - intros r Hr Hj. unfold ingestion_cell, bind, get_feature_group_exists, call.
    by rewrite H, Hr, Hj.
Qed.

Lemma ingestion_submits_one_job_witness :
  count is_processor_run
    (trace_of (ingestion_cell sample_ingestion (set_flag false fresh_kernel)))
  = 1%nat
  /\ ingestion_cell sample_ingestion (set_flag false fresh_kernel)
     = ([Print (msg_job feature_group_name);
         ProcessorRun (processing_job_name sample_ingestion);
         WaitForProcessingJob (processing_job_name sample_ingestion);
         Print "Completed"], set_flag false fresh_kernel, Returned tt).
Proof.
  destruct (ingestion_submits_one_job sample_ingestion
              (set_flag false fresh_kernel) eq_refl) as (H1 & _ & _ & H4).
  split; [exact H1|]. by apply H4.
Defined.

Lemma quiet_rounds p n :
  (forall name, p (FeatureGroupDescribe name) = false) ->
  (forall line, p (Print line) = false) ->
  (forall s, p (Sleep s) = false) ->
  count p (concat (replicate n round)) = 0%nat.
Proof.
  intros H1 H2 H3. induction n as [|n IH]; [done|].
  cbn [replicate concat]. rewrite count_app, IH. unfold round.
  by rewrite !count_cons, H1, H2, H3.
Qed.

Lemma quiet_wait_trace p n st :
  (forall name, p (FeatureGroupDescribe name) = false) ->
  (forall line, p (Print line) = false) ->
  (forall s, p (Sleep s) = false) ->
  count p (wait_trace n st) = 0%nat.
Proof.
  intros H1 H2 H3. unfold wait_trace.
  rewrite count_cons, count_app, H1, quiet_rounds by done.
  destruct (code_is st "Created"); [|done]. by rewrite count_cons, H2.
Qed.



(** X6.  A first run that goes well: the describe call fails with
    "ResourceNotFound", the creation is accepted, the status is "Creating"
    [n] times and then "Created", and the job is accepted and finishes.
    Then the run returns, and it has created the group once, paused [n]
    times and submitted exactly one processing job, after the creation was
    complete. *)
Theorem first_run_creates_and_ingests (fuel : nat) (w : stage_world)
    (k : kernel) (e : exn) (n : nat) (r : string) :
  describe_answer (provisioning w) = inl e ->
  service_code e = Some "ResourceNotFound" ->
  create_answer (provisioning w) = inr tt ->
  (forall i, (i < n)%nat -> polls (describes w) i (Some "Creating")) ->
  polls (describes w) n (Some "Created") -> (n <= fuel)%nat ->
  run_answer (ingestion w) = inr tt -> job_result (ingestion w) = inr r ->
  stage fuel w k =
    ([DescribeFeatureGroup feature_group_name;
      Print (msg_creating feature_group_name);
      FeatureGroupCreate feature_group_name]
     ++ wait_trace n (Some "Created")
     ++ [Print (msg_job feature_group_name);
         ProcessorRun (processing_job_name (ingestion w));
         WaitForProcessingJob (processing_job_name (ingestion w));
         Print r],
     set_flag false k, Returned tt)
  /\ count is_create (trace_of (stage fuel w k)) = 1%nat
  /\ count is_processor_run (trace_of (stage fuel w k)) = 1%nat.
Proof.
  intros H Hc Hcr Hpc Hp Hf Hrun Hjob.
  assert (Hstage : stage fuel w k =
    ([DescribeFeatureGroup feature_group_name;
      Print (msg_creating feature_group_name);
      FeatureGroupCreate feature_group_name]
     ++ wait_trace n (Some "Created")
     ++ [Print (msg_job feature_group_name);
         ProcessorRun (processing_job_name (ingestion w));
         WaitForProcessingJob (processing_job_name (ingestion w));
         Print r],
     set_flag false k, Returned tt)).
  { rewrite stage_unfold. unfold bind at 1.
    rewrite (provisioning_not_found _ k _ H Hc), Hcr.
    unfold rest_of_stage, bind at 1.
    rewrite (wait_run n fuel (describes w) (Some "Created") (set_flag false k))
      by done.
    rewrite code_is_true.
    unfold ingestion_cell, bind, get_feature_group_exists, call.
    cbn [set_flag feature_group_exists]. by rewrite Hrun, Hjob. }
  split; [exact Hstage|]. rewrite Hstage. unfold trace_of. cbn [fst].
  rewrite !count_app.
  rewrite (quiet_wait_trace is_create), (quiet_wait_trace is_processor_run)
    by done.
  by rewrite !count_cons.
Qed.

Lemma first_run_creates_and_ingests_witness :
  count is_create
    (trace_of (stage 3 (sample_stage (service_error "ResourceNotFound")) fresh_kernel))
  = 1%nat
  /\ count is_processor_run
       (trace_of (stage 3 (sample_stage (service_error "ResourceNotFound")) fresh_kernel))
     = 1%nat.
Proof.
  apply (first_run_creates_and_ingests 3
           (sample_stage (service_error "ResourceNotFound")) fresh_kernel
           (ClientError (error_response "ResourceNotFound")) 2 "Completed");
    [reflexivity|vm_compute; reflexivity|reflexivity|apply sample_polls_creating
    |apply sample_polls_created|lia|reflexivity|reflexivity].
Defined.

(** ** The feature definitions *)

Lemma feature_definition_complete (column_schema : dict string) name type :
  column_schema !! "name" = Some name -> column_schema !! "type" = Some type ->
  feature_definition column_schema =
    inr {| feature_name := name;
           feature_type :=
             default default_feature_type (column_to_feature_type_mapping !! type) |}.
Proof. intros Hn Ht. unfold feature_definition, schema_item. by rewrite Hn, Ht. Qed.

Lemma feature_type_of type :
  default default_feature_type (column_to_feature_type_mapping !! type) =
    if bool_decide (type = "float") then FRACTIONAL
    else if bool_decide (type = "long") then INTEGRAL
    else STRING.
Proof.
  unfold column_to_feature_type_mapping.
  repeat case_bool_decide; subst; try done.
  rewrite lookup_insert_ne by done. by rewrite lookup_singleton_ne.
Qed.

(** X7.  The feature definitions follow the column schemas one to one: for
    schemas that all have a name and a type, there is one definition per
    schema, in the same order and under the same name, of type Fractional
    for "float", Integral for "long" and String for every other type. *)
Theorem feature_definitions_follow_schemas (column_schemas : list (dict string)) :
  Forall (fun cs => is_Some (cs !! "name") /\ is_Some (cs !! "type")) column_schemas ->
  exists defs, feature_definitions column_schemas = inr defs
    /\ Forall2 (fun cs d =>
         cs !! "name" = Some (feature_name d)
         /\ (feature_type d = FRACTIONAL <-> cs !! "type" = Some "float")
         /\ (feature_type d = INTEGRAL <-> cs !! "type" = Some "long")
         /\ (feature_type d = STRING <->
               cs !! "type" <> Some "float" /\ cs !! "type" <> Some "long"))
       column_schemas defs.
Proof.
  induction 1 as [|cs rest ([name Hn] & [type Ht]) _ (defs & Hdefs & IH)].
  - by exists [].
  - eexists. cbn [feature_definitions].
    rewrite (feature_definition_complete _ _ _ Hn Ht), Hdefs.
    split; [reflexivity|]. constructor; [|done]. cbn [feature_name feature_type].
    rewrite Ht, feature_type_of. split; [done|].
    destruct (decide (type = "float")) as [->|Hf].
    { repeat split; try done; by intros []. }
    rewrite (bool_decide_eq_false_2 _ Hf).
    destruct (decide (type = "long")) as [->|Hl].
    { repeat split; try done; by intros []. }
    rewrite (bool_decide_eq_false_2 _ Hl).
    repeat split; try done; congruence.
Qed.


(** ** The name of the training job *)

Lemma replace_char_gone old new s :
  new <> old -> contains old (replace_char old new s) = false.
Proof.
  intros Hne. induction s as [|c s IH]; [done|]. simpl.
  rewrite IH, orb_false_r. destruct (Ascii.eqb_spec c old) as [->|Hc].
  - by apply Ascii.eqb_neq.
  - by apply Ascii.eqb_neq.
Qed.

Lemma replace_char_keeps c old new s :
  c <> new -> contains c s = false -> contains c (replace_char old new s) = false.
Proof.
  intros Hne. induction s as [|c' s IH]; [done|]. simpl.
  intros H. apply orb_false_iff in H as [Hc' Hs]. rewrite (IH Hs), orb_false_r.
  destruct (Ascii.eqb c' old); [|done]. apply Ascii.eqb_neq. congruence.
Qed.

Lemma replace_char_length old new s :
  String.length (replace_char old new s) = String.length s.
Proof. induction s as [|c s IH]; [done|]. simpl. by rewrite IH. Qed.

(** X9.  Whatever the instance type, the model name and the time stamp
    are, the base job name contains neither a dot nor a slash, and it is as
    long as the text it was made from. *)
Theorem base_job_name_sanitized (instance_type model cur_time : string) :
  contains "." (base_job_name instance_type model cur_time) = false
  /\ contains "/" (base_job_name instance_type model cur_time) = false
  /\ String.length (base_job_name instance_type model cur_time)
     = String.length
         ("smp-" +:+ instance_type +:+ "-" +:+ model +:+ "-" +:+ cur_time).
Proof.
  unfold base_job_name. split; [|split].
  - apply replace_char_keeps; [done|]. by apply replace_char_gone.
  - by apply replace_char_gone.
  - by rewrite !replace_char_length.
Qed.

(** ** The prediction loop *)

Section PredictionLoop.

Context {V : Type} (predict : nat -> string -> exn + string)
  (loads : string -> exn + V).

Lemma last_or_cons (p : V) ws prediction0 :
  last_or ws (Some p) = last_or (p :: ws) prediction0.
Proof. unfold last_or. rewrite last_cons. by destruct (last ws). Qed.

Lemma predict_loop_all data_inputs : forall st vs,
  imap (fun i => score predict loads (length (requests st) + i)) data_inputs
    = inr <$> vs ->
  predict_loop predict loads data_inputs st =
    ({| requests := requests st ++ data_inputs;
        predictions := predictions st ++ vs;
        prediction := last_or vs (prediction st) |}, None).
Proof.
  induction data_inputs as [|line rest IH]; intros [rq ps p0] vs H.
  - destruct vs; [|done]. cbn. by rewrite !app_nil_r.
  - destruct vs as [|v vs]; [done|]. rewrite imap_cons in H.
    injection H as Hv Hrest. cbn [requests] in Hv, Hrest.
    rewrite Nat.add_0_r in Hv. unfold score in Hv.
    cbn [predict_loop requests predictions prediction].
    destruct (predict (length rq) line) as [e|results]; [done|].
    destruct (loads results) as [e|p']; [done|]. injection Hv as ->.
    rewrite (IH _ vs).
    + cbn [requests predictions prediction].
      by rewrite <- !app_assoc, (last_or_cons v vs p0).
    + cbn [requests]. etrans; [|exact Hrest].
      apply imap_ext. intros i x _. rewrite length_app. simpl.
      f_equal. lia.
Qed.

Lemma predict_loop_fails pre : forall st vs line rest e,
  imap (fun i => score predict loads (length (requests st) + i)) pre
    = inr <$> vs ->
  score predict loads (length (requests st) + length pre) line = inl e ->
  predict_loop predict loads (pre ++ line :: rest) st =
    ({| requests := requests st ++ pre ++ [line];
        predictions := predictions st ++ vs;
        prediction := last_or vs (prediction st) |}, Some e).
Proof.
  induction pre as [|l pre IH]; intros [rq ps p0] vs line rest e H He.
  - destruct vs; [|done]. cbn [requests length] in He.
    rewrite Nat.add_0_r in He. unfold score in He.
    cbn [app predict_loop requests predictions prediction].
    rewrite app_nil_r.
    destruct (predict (length rq) line) as [e'|results];
      [by injection He as ->|].
    destruct (loads results) as [e'|p']; [by injection He as ->|done].
  - destruct vs as [|v vs]; [done|]. rewrite imap_cons in H.
    injection H as Hv Hrest. cbn [requests] in Hv, Hrest, He.
    rewrite Nat.add_0_r in Hv. unfold score in Hv.
    cbn [app predict_loop requests predictions prediction].
    destruct (predict (length rq) l) as [e'|results]; [done|].
    destruct (loads results) as [e'|p']; [done|]. injection Hv as ->.
    rewrite (IH _ vs line rest e).
    + cbn [requests predictions prediction].
      by rewrite <- !app_assoc, (last_or_cons v vs p0).
    + cbn [requests]. etrans; [|exact Hrest].
      apply imap_ext. intros i x _. rewrite length_app. simpl.
      f_equal. lia.
    + cbn [requests]. rewrite length_app. etrans; [|exact He].
      f_equal. simpl. lia.
Qed.

(** X10.  When the endpoint answers every line and every answer is read,
    the prediction cell has sent exactly one request per line, in the order
    of the lines, and [predictions] holds their values in that order.  It
    prints the last of them; with no line at all it prints what the name
    [prediction] held before, and raises [NameError] if the name was
    unbound. *)
Theorem predictions_one_per_line (data_inputs : list string) (vs : list V)
    (prediction0 : option V) :
  imap (score predict loads) data_inputs = inr <$> vs ->
  prediction_cell predict loads data_inputs prediction0 =
    ({| requests := data_inputs;
        predictions := vs;
        prediction := last_or vs prediction0 |},
     match last_or vs prediction0 with
     | Some p => inr p
     | None => inl (NameError "prediction")
     end)
  /\ length vs = length data_inputs
  /\ (data_inputs = [] -> last_or vs prediction0 = prediction0).
Proof.
  intros H. unfold prediction_cell.
  rewrite (predict_loop_all data_inputs _ vs) by done.
  cbn [requests predictions prediction app].
  split; [by destruct (last_or vs prediction0)|].
  apply (f_equal length) in H. rewrite length_imap, length_fmap in H.
  split; [done|]. intros ->. by destruct vs.
Qed.

(** X11.  The first request that fails ends the prediction cell: the
    requests made are the lines up to and including the failing one, the
    values read before stay in [predictions], the exception leaves the
    cell, and nothing is printed. *)
Theorem first_failed_prediction_stops (pre rest : list string) (line : string)
    (vs : list V) (e : exn) (prediction0 : option V) :
  imap (score predict loads) pre = inr <$> vs ->
  score predict loads (length pre) line = inl e ->
  prediction_cell predict loads (pre ++ line :: rest) prediction0 =
    ({| requests := pre ++ [line];
        predictions := vs;
        prediction := last_or vs prediction0 |}, inl e).
Proof.
  intros H He. unfold prediction_cell.
  by rewrite (predict_loop_fails pre _ vs line rest e).
Qed.

End PredictionLoop.

(** ** Frames: selection, cross join, lower-casing *)

Section MoreFrameFacts.

Context {V : Type}.
Implicit Types (df : DataFrame V) (row : list V) (cols labels : list string).

Lemma filter_none {A} (P : A -> Prop) `{!forall x, Decision (P x)} (l : list A) :
  (forall x, x ∈ l -> ~ P x) -> filter P l = [].
Proof.
  induction l as [|x l IH]; [done|]. intros Hout.
  rewrite filter_cons, decide_False by (apply Hout; left).
  apply IH. intros y Hy. apply Hout. by right.
Qed.

Lemma positions_nonempty label cols :
  positions label cols <> [] <-> (1 <= occurrences label cols)%nat.
Proof.
  unfold positions. rewrite <- (positions_from_length cols 0 label).
  destruct (positions_from 0 label cols); simpl; split; try done; lia.
Qed.

Lemma missing_none labels cols :
  filter (fun l => positions l cols = []) labels = []
  <-> forall l, l ∈ labels -> (1 <= occurrences l cols)%nat.
Proof.
  induction labels as [|l labels IH]; [by split; [intros _ l' ?%elem_of_nil|]|].
  rewrite filter_cons. destruct (decide (positions l cols = [])) as [He|Hne].
  - split; [done|]. intros H. exfalso.
    assert (Hl : (1 <= occurrences l cols)%nat) by (apply H; left).
    by apply positions_nonempty in Hl.
  - rewrite IH. apply positions_nonempty in Hne. split.
    + intros H l' [->|Hl']%elem_of_cons; [done|by apply H].
    + intros H l' Hl'. apply H. by right.
Qed.

(** The positions that a selection reads are positions of the frame, and
    each carries one of the labels. *)
Lemma selection_positions labels cols :
  Forall (fun j => exists l, l ∈ labels /\ cols !! j = Some l)
    (l ← labels; positions l cols).
Proof.
  induction labels as [|l labels IH]; [constructor|].
  cbn [mbind list_bind]. apply Forall_app. split.
  - eapply Forall_impl; [apply (positions_from_spec cols 0 l)|].
    intros j (n & -> & Hn). exists l. split; [left|done].
  - eapply Forall_impl; [exact IH|]. intros j (l' & Hl' & Hj).
    exists l'. split; [by right|done].
Qed.

Lemma selection_length labels cols :
  length (l ← labels; positions l cols) = selected labels cols.
Proof.
  induction labels as [|l labels IH]; [done|].
  cbn [mbind list_bind selected foldr]. rewrite length_app.
  unfold positions at 1. rewrite positions_from_length. f_equal. exact IH.
Qed.

Lemma take_cells_elem {A} idx (l : list A) x :
  x ∈ take_cells idx l -> exists j, j ∈ idx /\ l !! j = Some x.
Proof.
  unfold take_cells. intros (j & Hj & Hx)%list_elem_of_omap. eauto.
Qed.

(** X12.  The selection [df[labels]] succeeds exactly when every label is
    the label of some column.  It then keeps all rows, yields one column
    for every column that carries one of the labels (a label carried by
    several columns yields them all), every column of the result has one
    of the labels, and the result is a frame again. *)
Theorem getitem_selects labels df :
  ((exists df', getitem labels df = inr df')
   <-> forall l, l ∈ labels -> (1 <= occurrences l (columns df))%nat)
  /\ (forall df', getitem labels df = inr df' ->
        length (values df') = length (values df)
        /\ length (columns df') = selected labels (columns df)
        /\ (forall c, c ∈ columns df' -> c ∈ labels)
        /\ (rectangular df -> rectangular df')).
Proof.
  pose proof (selection_positions labels (columns df)) as Hpos.
  assert (Hlt : Forall (fun j => (j < length (columns df))%nat)
                  (l ← labels; positions l (columns df))).
  { eapply Forall_impl; [exact Hpos|]. intros j (l & _ & Hj).
    by eapply lookup_lt_Some. }
  split.
  - rewrite <- missing_none. unfold getitem.
    destruct (filter _ labels) as [|m ms]; split; try done; [by eexists|].
    by intros [df' ?].
  - intros df' H. unfold getitem in H.
    destruct (filter _ labels) as [|m ms]; [|done]. injection H as <-.
    cbn [columns values]. split; [by rewrite length_fmap|].
    split; [by rewrite take_cells_length, selection_length|]. split.
    + intros c (j & Hj & Hc)%take_cells_elem.
      rewrite Forall_forall in Hpos. destruct (Hpos j Hj) as (l & Hl & Hjl).
      congruence.
    + unfold rectangular. cbn [columns values]. intros Hrect.
      apply Forall_fmap. eapply Forall_impl; [exact Hrect|].
      intros row Hrow. simpl.
      rewrite !take_cells_length; [done|done|by rewrite Hrow].
Qed.

Lemma cross_length (lrows rrows : list (list V)) :
  length (l ← lrows; r ← rrows; [l ++ r]) = (length lrows * length rrows)%nat.
Proof.
  induction lrows as [|l lrows IH]; [done|].
  cbn [mbind list_bind]. rewrite length_app.
  change (length (l :: lrows)) with (S (length lrows)). simpl.
  f_equal; [|exact IH].
  clear IH. induction rrows as [|r rrows IHr]; [done|].
  cbn [mbind list_bind]. rewrite length_app. simpl. by rewrite <- IHr.
Qed.

Lemma renamer_nothing suffix x : renamer [] suffix x = x.
Proof. unfold renamer. by rewrite bool_decide_eq_false_2 by apply not_elem_of_nil. Qed.

(** X13.  The cross join has the product of the two numbers of rows and
    the sum of the two numbers of columns, and it is a frame when both
    sides are; when no label is shared, its columns are those of the left
    frame followed by those of the right one, unchanged. *)
Theorem merge_cross_shape (left right : DataFrame V) :
  length (values (merge_cross left right))
  = (length (values left) * length (values right))%nat
  /\ length (columns (merge_cross left right))
     = (length (columns left) + length (columns right))%nat
  /\ (rectangular left -> rectangular right ->
        rectangular (merge_cross left right))
  /\ ((forall c, c ∈ columns left -> c ∉ columns right) ->
        columns (merge_cross left right) = columns left ++ columns right).
Proof.
  unfold merge_cross. cbn [columns values]. split; [apply cross_length|].
  split; [by rewrite length_app, !length_fmap|]. split.
  - unfold rectangular. cbn [columns values]. intros Hl Hr.
    rewrite Forall_forall in Hl, Hr. apply Forall_forall.
    intros row (l & Hrow & Hlin)%list_elem_of_bind.
    apply list_elem_of_bind in Hrow as (r & Hrow & Hrin).
    apply list_elem_of_singleton in Hrow as ->.
    by rewrite !length_app, !length_fmap, (Hl l Hlin), (Hr r Hrin).
  - intros Hdisj.
    assert (Hnone : filter (fun x => x ∈ columns right) (columns left) = []).
    { apply filter_none. intros c Hc. by apply Hdisj. }
    rewrite Hnone. f_equal; apply list_eq; intros i;
      rewrite list_lookup_fmap; destruct (_ !! i); simpl; try done;
      by rewrite renamer_nothing.
Qed.

Lemma occurrences_none label cols :
  label ∉ cols -> occurrences label cols = 0%nat.
Proof.
  intros H. unfold occurrences. apply length_zero_iff_nil.
  apply filter_none. by intros c Hc ->.
Qed.

End MoreFrameFacts.

Lemma getitem_selects_witness :
  exists df',
    getitem ["a"; "b"]
      {| columns := ["b"; "a"; "a"]; values := [[1; 2; 3]; [4; 5; 6]] |}
    = inr df'.
Proof.
  apply (proj1 (getitem_selects ["a"; "b"]
           {| columns := ["b"; "a"; "a"]; values := [[1; 2; 3]; [4; 5; 6]] |})).
  intros l Hl. apply list_elem_of_In in Hl. simpl in Hl.
  destruct Hl as [<-|[<-|[]]]; vm_compute; lia.
Defined.

Lemma merge_cross_shape_witness :
  columns (merge_cross
     {| columns := ["trackid"; "energy"]; values := [[1; 2]; [3; 4]] |}
     {| columns := ["userid"]; values := [[7]; [8]; [9]] |})
  = ["trackid"; "energy"; "userid"].
Proof.
  apply (proj2 (proj2 (proj2 (merge_cross_shape
           {| columns := ["trackid"; "energy"]; values := [[1; 2]; [3; 4]] |}
           {| columns := ["userid"]; values := [[7]; [8]; [9]] |})))).
  intros c Hc Hr. apply list_elem_of_In in Hc, Hr. simpl in Hc, Hr.
  destruct Hr as [<-|[]]. destruct Hc as [Hc|[Hc|[]]]; discriminate.
Defined.

(** ** The scored frame *)

Section ScoredFrame.

Context {V : Type}.
Implicit Types (df : DataFrame V) (row : list V) (cols labels : list string).

Lemma positions_from_absent cols i label :
  label ∉ cols -> positions_from i label cols = [].
Proof.
  intros H. apply length_zero_iff_nil.
  by rewrite positions_from_length, occurrences_none.
Qed.

Lemma positions_from_NoDup cols : forall i j c,
  NoDup cols -> cols !! j = Some c -> positions_from i c cols = [(i + j)%nat].
Proof.
  induction cols as [|c0 cols IH]; intros i j c Hnd Hj; [done|].
  apply NoDup_cons in Hnd as [Hc0 Hnd]. cbn [positions_from].
  destruct j as [|j]; simpl in Hj.
  - injection Hj as ->. rewrite bool_decide_eq_true_2 by done.
    rewrite positions_from_absent by done. simpl. f_equal. lia.
  - assert (c0 <> c) by (intros ->; apply Hc0; by eapply list_elem_of_lookup_2).
    rewrite bool_decide_eq_false_2 by done. simpl.
    rewrite (IH (S i) j c Hnd Hj). f_equal. lia.
Qed.

Lemma selection_NoDup cols : NoDup cols ->
  forall suf pre post, cols = pre ++ suf ++ post ->
  (l ← suf; positions l cols) = seq (length pre) (length suf).
Proof.
  intros Hnd. induction suf as [|c suf IH]; intros pre post Hcols; [done|].
  cbn [mbind list_bind]. unfold positions at 1.
  rewrite (positions_from_NoDup cols 0 (length pre) c Hnd).
  - simpl. f_equal. rewrite (IH (pre ++ [c]) post).
    + rewrite length_app. simpl. f_equal. lia.
    + by rewrite Hcols, <- app_assoc.
  - rewrite Hcols. by rewrite lookup_app_r, Nat.sub_diag.
Qed.

Lemma take_cells_seq {A} k : forall i (l : list A),
  (i + k <= length l)%nat -> take_cells (seq i k) l = take k (drop i l).
Proof.
  induction k as [|k IH]; intros i l Hl; [done|].
  cbn [seq]. rewrite take_cells_cons.
  destruct (lookup_lt_is_Some_2 l i ltac:(lia)) as [x Hx]. rewrite Hx.
  rewrite (drop_S l x i Hx). simpl. f_equal. apply IH. lia.
Qed.

Lemma occurrences_elem label cols :
  label ∈ cols -> (1 <= occurrences label cols)%nat.
Proof.
  intros H. unfold occurrences.
  assert (Hin : label ∈ filter (fun c => c = label) cols)
    by (by apply list_elem_of_filter).
  destruct (filter _ cols); [by apply elem_of_nil in Hin|simpl; lia].
Qed.

(** Reading the last column first and then all the others. *)
Lemma take_cells_rotate {A} (l : list A) (x : A) :
  take_cells (length l :: seq 0 (length l)) (l ++ [x]) = x :: l.
Proof.
  rewrite take_cells_cons, lookup_app_r, Nat.sub_diag by done. simpl.
  f_equal. rewrite take_cells_seq by (rewrite length_app; simpl; lia).
  by rewrite drop_0, take_app_length.
Qed.

Lemma rotate_rows n (rows : list (list V)) : forall (vals : list V),
  Forall (fun row => length row = n) rows ->
  take_cells (n :: seq 0 n) <$> zip_with (fun row v => row ++ [v]) rows vals
  = zip_with cons vals rows.
Proof.
  induction rows as [|row rows IH]; intros [|v vals] Hrows; try done.
  apply Forall_cons in Hrows as [<- Hrows]. cbn [zip_with fmap list_fmap].
  by rewrite take_cells_rotate, <- IH.
Qed.

(** X15.  From a frame whose columns are the feature names (without
    repetition and without "rating") and one prediction per row, the two
    assignments make the frame that is ranked and written out: its columns
    are "rating" followed by the feature names, which are the headers given
    to the explainability job, each row is its prediction followed by its
    feature cells, and "rating" is the label of the first column only.
    With a different number of predictions the first assignment raises
    [ValueError]. *)
Theorem scored_frame_shape (nan : V) (feature_names : list string)
    (predictions : list V) (inference_df : DataFrame V) :
  columns inference_df = feature_names -> rectangular inference_df ->
  NoDup feature_names -> "rating" ∉ feature_names ->
  (length predictions = length (values inference_df) ->
     scored_frame nan feature_names predictions inference_df
     = inr {| columns := explainability_headers feature_names;
              values := zip_with cons predictions (values inference_df) |}
     /\ positions "rating" (explainability_headers feature_names) = [0%nat])
  /\ (values inference_df <> [] ->
      length predictions <> length (values inference_df) ->
      scored_frame nan feature_names predictions inference_df
      = inl (OtherException "ValueError")).
Proof.
  intros Hcols Hrect Hnd Hr. split.
  - intros Hlen. split.
    + unfold scored_frame, setitem.
      assert (Hrows : match values inference_df, predictions with
                      | [], _ :: _ =>
                          replicate (length predictions)
                            (replicate (length (columns inference_df)) nan)
                      | rows, _ => rows
                      end = values inference_df).
      { destruct (values inference_df), predictions; done. }
      rewrite Hrows, bool_decide_eq_true_2 by done.
      unfold positions at 1. rewrite Hcols, positions_from_absent by done.
      unfold getitem. cbn [columns values].
      assert (Hnd' : NoDup (feature_names ++ ["rating"])).
      { apply NoDup_app. split; [done|]. split; [|apply NoDup_singleton].
        intros x Hx ->%list_elem_of_singleton. done. }
      rewrite (proj2 (missing_none _ _)).
      2:{ intros l Hl. apply occurrences_elem.
          apply elem_of_cons in Hl as [->|Hl]; apply elem_of_app;
            [right; by apply list_elem_of_singleton|by left]. }
      assert (Hidx :
        (l ← "rating" :: feature_names; positions l (feature_names ++ ["rating"]))
        = length feature_names :: seq 0 (length feature_names)).
      { cbn [mbind list_bind]. unfold positions at 1.
        rewrite (positions_from_NoDup _ 0 (length feature_names) "rating" Hnd')
          by (by rewrite lookup_app_r, Nat.sub_diag).
        by rewrite (selection_NoDup _ Hnd' feature_names [] ["rating"]). }
      rewrite Hidx. f_equal. f_equal.
      * apply take_cells_rotate.
      * apply rotate_rows. unfold rectangular in Hrect. by rewrite Hcols in Hrect.
    + unfold explainability_headers, label, positions. cbn [positions_from].
      rewrite bool_decide_eq_true_2 by done.
      by rewrite positions_from_absent.
  - intros Hne Hlen. unfold scored_frame, setitem.
    destruct (values inference_df) as [|row rows] eqn:E; [done|].
    by rewrite bool_decide_eq_false_2.
Qed.

End ScoredFrame.

Lemma scored_frame_shape_witness :
  scored_frame 0 ["energy"; "userid"] [4; 2]
    {| columns := ["energy"; "userid"]; values := [[7; 11005]; [9; 11005]] |}
  = inr {| columns := ["rating"; "energy"; "userid"];
           values := [[4; 7; 11005]; [2; 9; 11005]] |}.
Proof.
  apply (proj1 (scored_frame_shape 0 ["energy"; "userid"] [4; 2]
           {| columns := ["energy"; "userid"];
              values := [[7; 11005]; [9; 11005]] |}
           eq_refl ltac:(repeat constructor)
           ltac:(apply NoDup_ListNoDup; repeat constructor; simpl; intuition discriminate)
           ltac:(intros H; apply list_elem_of_In in H; simpl in H; intuition discriminate))).
  reflexivity.
Defined.

(** ** The playlist *)

Section Playlist.

Context {V : Type} (num : V -> Q).
Implicit Types (df : DataFrame V) (rows : list (list V)).

Lemma StronglySorted_split {A} (R : A -> A -> Prop) (l : list A) :
  StronglySorted R l ->
  forall n a b, a ∈ take n l -> b ∈ drop n l -> R a b.
Proof.
  induction 1 as [|x l Hs IH Hx]; intros n a b Ha Hb.
  - rewrite take_nil in Ha. by apply elem_of_nil in Ha.
  - destruct n as [|n]; simpl in Ha, Hb; [by apply elem_of_nil in Ha|].
    apply elem_of_cons in Ha as [->|Ha]; [|by eapply IH].
    rewrite List.Forall_forall in Hx. apply Hx, list_elem_of_In.
    rewrite <- (take_drop n l). apply elem_of_app. by right.
Qed.

Lemma descending_split i rows n a b :
  descending num i rows -> a ∈ take n rows -> b ∈ drop n rows ->
  (key num i b <= key num i a)%Q.
Proof.
  intros Hd.
  apply (StronglySorted_split (fun a b => (key num i b <= key num i a)%Q) rows).
  apply Sorted_StronglySorted; [|exact Hd].
  intros x y z Hxy Hyz. by eapply Qle_trans.
Qed.

(** X16.  The playlist keeps the best rows, for every [playlist_length],
    negative ones included: the rows of the scored frame are those of the
    playlist together with the rows left out, no row left out has a higher
    rating than a row of the playlist, and the playlist has [min(n, N)] rows
    for [n >= 0] and all but the [-n] lowest for [n < 0]. *)
Theorem playlist_keeps_the_best (n : Z) (inference_df : DataFrame V) (i : nat) :
  positions "rating" (columns inference_df) = [i] ->
  exists pl rest,
    playlist num n inference_df = inr pl
    /\ columns pl = columns inference_df
    /\ values inference_df ≡ₚ values pl ++ rest
    /\ (forall a b, a ∈ values pl -> b ∈ rest ->
          (key num i b <= key num i a)%Q)
    /\ length (values pl) = kept n (length (values inference_df)).
Proof.
  intros Hi. unfold playlist, sort_values. rewrite Hi.
  set (sorted := sort_rows false (key num i) (values inference_df)).
  set (m := if 0 <=? n then Z.to_nat n
            else (length sorted - Z.to_nat (- n))%nat).
  exists (head n {| columns := columns inference_df; values := sorted |}),
         (drop m sorted).
  assert (Hv : values (head n {| columns := columns inference_df;
                                 values := sorted |}) = take m sorted).
  { unfold head, m. cbn [values]. by destruct (0 <=? n). }
  rewrite Hv. split; [done|]. split; [done|]. split; [|split].
  - rewrite take_drop. symmetry. apply sort_rows_Permutation.
  - intros a b. apply descending_split, ordered_descending, sort_rows_Sorted.
  - rewrite length_take. unfold m, kept, sorted. rewrite sort_rows_length.
    destruct (0 <=? n); lia.
Qed.

(** X17.  The playlist cell needs exactly one column "rating": without
    one it raises [KeyError], with several it raises [ValueError], and it
    yields a playlist exactly when there is one. *)
Theorem playlist_needs_one_rating_column (n : Z) (inference_df : DataFrame V) :
  (occurrences "rating" (columns inference_df) = 0%nat ->
     playlist num n inference_df = inl (KeyError ["rating"]))
  /\ ((2 <= occurrences "rating" (columns inference_df))%nat ->
        playlist num n inference_df = inl (OtherException "ValueError"))
  /\ ((exists pl, playlist num n inference_df = inr pl)
      <-> occurrences "rating" (columns inference_df) = 1%nat).
Proof.
  unfold playlist, sort_values.
  rewrite <- (positions_from_length (columns inference_df) 0 "rating").
  fold (positions "rating" (columns inference_df)).
  destruct (positions "rating" (columns inference_df)) as [|j [|j' l]]; simpl.
  - split; [done|]. split; [lia|]. split; [by intros [pl ?]|done].
  - split; [done|]. split; [lia|]. split; [done|by eexists].
  - split; [done|]. split; [done|]. split; [by intros [pl ?]|done].
Qed.

End Playlist.

Lemma playlist_keeps_the_best_witness :
  exists pl rest,
    playlist inject_Z (-1)
      {| columns := ["rating"; "trackid"];
         values := [[1; 101]; [5; 102]; [3; 103]; [4; 104]] |} = inr pl
    /\ columns pl = ["rating"; "trackid"]
    /\ [[1; 101]; [5; 102]; [3; 103]; [4; 104]] ≡ₚ values pl ++ rest
    /\ (forall a b, a ∈ values pl -> b ∈ rest ->
          (key inject_Z 0 b <= key inject_Z 0 a)%Q)
    /\ length (values pl) = 3%nat.
Proof.
  apply (playlist_keeps_the_best inject_Z (-1)
           {| columns := ["rating"; "trackid"];
              values := [[1; 101]; [5; 102]; [3; 103]; [4; 104]] |} 0).
  vm_compute. reflexivity.
Defined.

Lemma playlist_needs_one_rating_column_witness :
  playlist inject_Z 10
    {| columns := ["rating"; "energy"; "rating"]; values := [[4; 7; 4]] |}
  = inl (OtherException "ValueError").
Proof.
  apply (proj1 (proj2 (playlist_needs_one_rating_column inject_Z 10
           {| columns := ["rating"; "energy"; "rating"]; values := [[4; 7; 4]] |}))).
  vm_compute. lia.
Defined.

(** ** The lines sent to the endpoint *)

Lemma count_char_app c (s t : string) :
  count_char c (s +:+ t) = (count_char c s + count_char c t)%nat.
Proof. induction s as [|c' s IH]; [done|]. simpl. rewrite IH. lia. Qed.

Lemma count_char_none c (s : string) : contains c s = false -> count_char c s = 0%nat.
Proof.
  induction s as [|c' s IH]; [done|]. simpl.
  intros [-> Hs]%orb_false_iff. by rewrite IH.
Qed.

Lemma count_char_join (fields : list string) :
  Forall (fun f => contains "," f = false) fields ->
  count_char "," (join "," fields) = pred (length fields).
Proof.
  induction 1 as [|f fields Hf Hall IH]; [done|].
  destruct fields as [|g fields]; [by apply count_char_none|].
  change (join "," (f :: g :: fields))
    with (f +:+ String "," (join "," (g :: fields))).
  rewrite count_char_app, (count_char_none _ _ Hf).
  cbn [count_char]. rewrite IH. simpl. done.
Qed.

(** X18.  When no cell is rendered with a comma, every line of
    [data_inputs] has exactly one comma less than the frame has columns:
    the endpoint receives one field per feature, and one line per row. *)
Theorem data_inputs_one_field_per_column {V : Type} (str : V -> string)
    (df : DataFrame V) :
  rectangular df ->
  Forall (Forall (fun v => contains "," (str v) = false)) (values df) ->
  length (data_inputs str df) = length (values df)
  /\ Forall (fun line => count_char "," line = pred (length (columns df)))
       (data_inputs str df).
Proof.
  intros Hrect Hcells. unfold data_inputs. split; [by rewrite length_fmap|].
  apply Forall_fmap. unfold rectangular in Hrect.
  rewrite Forall_forall in Hrect, Hcells. apply Forall_forall. intros row Hrow.
  simpl. unfold format_row. rewrite count_char_join.
  - by rewrite length_fmap, (Hrect row Hrow).
  - apply Forall_fmap. exact (Hcells row Hrow).
Qed.

Lemma data_inputs_one_field_per_column_witness :
  Forall (fun line => count_char "," line = 2%nat)
    (data_inputs str_int
       {| columns := ["energy"; "tempo"; "userid"];
          values := [[3; -17; 11005]; [0; 250; 11005]] |}).
Proof.
  apply (data_inputs_one_field_per_column str_int
           {| columns := ["energy"; "tempo"; "userid"];
              values := [[3; -17; 11005]; [0; 250; 11005]] |});
    repeat constructor.
Defined.

(** ** Sample runs of the further cells *)

Lemma feature_definitions_follow_schemas_witness :
  exists defs, feature_definitions column_schemas = inr defs
    /\ Forall2 (fun cs d =>
         cs !! "name" = Some (feature_name d)
         /\ (feature_type d = FRACTIONAL <-> cs !! "type" = Some "float")
         /\ (feature_type d = INTEGRAL <-> cs !! "type" = Some "long")
         /\ (feature_type d = STRING <->
               cs !! "type" <> Some "float" /\ cs !! "type" <> Some "long"))
       column_schemas defs.
Proof.
  apply feature_definitions_follow_schemas.
  repeat constructor; by eexists.
Defined.


Lemma predictions_one_per_line_witness :
  prediction_cell sample_predict sample_loads ["7,11005"; "9,11005"] None
  = ({| requests := ["7,11005"; "9,11005"];
        predictions := [3; 4];
        prediction := last_or [3; 4] None |},
     match last_or [3; 4] None with
     | Some p => inr p
     | None => inl (NameError "prediction")
     end)
  /\ length [3; 4] = length ["7,11005"; "9,11005"].
Proof.
  destruct (predictions_one_per_line sample_predict sample_loads
              ["7,11005"; "9,11005"] [3; 4] None) as (H1 & H2 & _);
    [vm_compute; reflexivity|].
  by split.
Defined.

Lemma first_failed_prediction_stops_witness :
  prediction_cell failing_predict sample_loads
    (["7,11005"; "9,11005"] ++ "8,11005" :: ["6,11005"]) None
  = ({| requests := ["7,11005"; "9,11005"] ++ ["8,11005"];
        predictions := [3; 4];
        prediction := last_or [3; 4] None |},
     inl (OtherException "ModelError")).
Proof.
  apply first_failed_prediction_stops; vm_compute; reflexivity.
Defined.

(** ** Explainability: the job and its objects *)

(** X19.  Unlike the error of the download, an exception of
    [run_explainability] is not handled: after a 404 the job is submitted
    once, and if the submission raises, that exception leaves the cell. *)
Theorem explainability_job_failure_escapes (pre : string)
    (w : explainability_world) (k : kernel) (e e' : exn) :
  download_answer w = inl e -> service_code e = Some "404" ->
  job_answer w = inl e' ->
  explainability_cell pre w k =
    ([DownloadFile (shap_key pre); Print "Running explainability job";
      RunExplainability], k, Raised e').
Proof.
  intros H Hc He'. rewrite (explainability_404 _ _ _ _ H Hc). by rewrite He'.
Qed.

Lemma explainability_job_failure_escapes_witness :
  explainability_cell "music-recommendation"
    {| download_answer := service_error "404";
       job_answer := service_error "ResourceLimitExceeded" |} fresh_kernel
  = ([DownloadFile (shap_key "music-recommendation");
      Print "Running explainability job"; RunExplainability],
     fresh_kernel, Raised (ClientError (error_response "ResourceLimitExceeded"))).
Proof.
  apply (explainability_job_failure_escapes "music-recommendation" _ fresh_kernel
           (ClientError (error_response "404")));
    [reflexivity|vm_compute; reflexivity|reflexivity].
Defined.

Lemma string_app_assoc (s t u : string) : (s +:+ t) +:+ u = s +:+ (t +:+ u).
Proof.
  induction s as [|c s IH]; [done|].
  change (String c ((s +:+ t) +:+ u) = String c (s +:+ (t +:+ u))).
  by rewrite IH.
Qed.

(** X20.  The objects fit together for every bucket and prefix: the file
    whose presence decides whether a job is submitted is the object that
    the last cell reads, it lies under the output location given to the
    job, and the input given to the job is the object that the notebook
    uploaded. *)
Theorem explainability_objects_agree (bucket pre : string) :
  local_explanations_path bucket pre = s3_uri bucket (shap_key pre)
  /\ local_explanations_path bucket pre
     = explainability_output_path bucket pre +:+ "/explanations_shap/out.csv"
  /\ pred_data_uri bucket pre = s3_uri bucket (pred_data_key pre).
Proof.
  unfold local_explanations_path, explainability_output_path, s3_uri, shap_key,
    pred_data_uri, pred_data_key.
  split; [|split]; [|done|done].
  by rewrite !string_app_assoc.
Qed.
